(** * The shopping cart of ec-stable-app

    A shallow embedding of the cart store of the storefront
    ([context/CartContext.tsx], and its refactoring into the hooks
    [useCartStorage] and [useCartOperations] with the provider that
    combines them), together with the browser services it talks to:
    [localStorage], the clock, [JSON] and [Date].

    Conventions of the embedding.
    - A TypeScript [number] is an IEEE 754 double.  The store and its
      operations are written over integers ([Z]): quantities are counts
      and prices are whole yen.  The module [Binary64] has the updaters,
      the total of the cart page and the JSON text of a collection over
      doubles (the [SpecFloat] of the Standard Library at precision 53,
      with NaN, the infinities and rounding).  The two agree while every
      number involved is an integer of magnitude at most 2^53; a
      statement that depends on the arithmetic is made over [Binary64] or
      carries that bound.
    - [localStorage] is a finite map from keys to strings.
    - [setItems(updater)] is function application on the [items] field; a
      side effect performed inside an updater acts on the store that is
      threaded through.
    - The persistence effect has the dependency list [[items, isLoading]].
      Every updater of the cart builds a fresh array ([map], [filter], a
      spread or a literal), so after every mutation the component renders
      again and the effect runs: a mutation step is the updater followed
      by the effect.
    - [new Date()] reads the clock; the time of each reading is an explicit
      argument, in milliseconds since the epoch.
    - [JSON.stringify], [JSON.parse], [toISOString] and the [Date]
      constructor are the fields of a class [Platform]; the operations
      and most properties are stated for every platform.  The module
      [Reference] is an executable platform, used where a statement needs
      the text that is written. *)

From Stdlib Require Import ZArith QArith List Ascii String DecimalString.
From Stdlib Require Import SpecFloat.
From Stdlib Require DecimalZ.
From stdpp Require Import base decidable option list gmap strings.

Local Open Scope Z_scope.

(** ** Data model *)

(** [type CartItem = { id; name; price; quantity; imageUrl? }]. *)
Record CartItem := mkCartItem {
  id : string;
  name : string;
  price : Z;
  quantity : Z;
  imageUrl : option string
}.

#[global] Instance CartItem_eq_dec : EqDecision CartItem.
Proof. solve_decision. Defined.

(** The object spread [{ ...i, quantity: q }]. *)
Definition with_quantity (i : CartItem) (q : Z) : CartItem :=
  {| id := id i; name := name i; price := price i;
     quantity := q; imageUrl := imageUrl i |}.

(** ** The updaters of [useCartOperations] *)

Module Updater.

(** [prevItems.find((i) => i.id === item.id)], then either the [map]
    that merges quantities or the spread that appends. *)
Definition addToCart (item : CartItem) (prevItems : list CartItem)
  : list CartItem :=
  match List.find (fun i => bool_decide (id i = id item)) prevItems with
  | Some _existingItem =>
      List.map (fun i =>
                  if bool_decide (id i = id item)
                  then with_quantity i (quantity i + quantity item)
                  else i) prevItems
  | None => prevItems ++ [item]
  end.

(** [prevItems.filter((item) => item.id !== id)]. *)
Definition removeFromCart (itemId : string) (prevItems : list CartItem)
  : list CartItem :=
  List.filter (fun item => negb (bool_decide (id item = itemId))) prevItems.

(** [prevItems.map((item) => item.id === itemId ? { ...item, quantity } : item)]. *)
Definition updateQuantity (itemId : string) (q : Z)
  (prevItems : list CartItem) : list CartItem :=
  List.map (fun item =>
              if bool_decide (id item = itemId)
              then with_quantity item q else item) prevItems.

End Updater.

(** ** Browser services *)

(** [localStorage]: string keys, string values; [getItem] gives [null]
    ([None]) for a key that is not there. *)
Abbreviation Storage := (gmap string string).

Definition getItem (k : string) (ls : Storage) : option string := ls !! k.
Definition setItem (k v : string) (ls : Storage) : Storage := <[k := v]> ls.
Definition removeItem (k : string) (ls : Storage) : Storage := delete k ls.

(** JavaScript truthiness of a [string | null]: [null] and the empty
    string are falsy. *)
Definition truthy (v : option string) : bool :=
  match v with
  | Some s => negb (bool_decide (s = EmptyString))
  | None => false
  end.

(** What a call can do besides returning. *)
Inductive result (A : Type) : Type :=
| Returns (a : A)
| Throws (message : string).
Arguments Returns {A} a.
Arguments Throws {A} message.

(** The built-ins the cart calls.  [JSON_parse] is typed by the
    annotation of the state it feeds ([useState<CartItem[]>], no
    validation): [None] is a [SyntaxError].  [Date_parse] is
    [new Date(s).getTime()], with [None] for NaN (an invalid date);
    [Date_toISOString] is [new Date(t).toISOString()]. *)
Class Platform := {
  JSON_stringify : list CartItem → string;
  JSON_parse : string → option (list CartItem);
  Date_toISOString : Z → string;
  Date_parse : string → option Z
}.

(** ** Constants *)

Definition CART_STORAGE_KEY : string := "ec-cart-items".
Definition CART_TIMESTAMP_KEY : string := "ec-cart-timestamp".
Definition CART_EXPIRY_HOURS : Q := inject_Z 24.

(** ** The store: component state and the storage it mirrors to *)

Record CartStore := mkCartStore {
  items : list CartItem;
  isLoading : bool;
  localStorage : Storage
}.

(** [useState<CartItem[]>([])] and [useState(true)]. *)
Definition initialStore (ls : Storage) : CartStore :=
  {| items := []; isLoading := true; localStorage := ls |}.

Definition setItems (f : list CartItem → list CartItem) (st : CartStore)
  : CartStore :=
  {| items := f (items st); isLoading := isLoading st;
     localStorage := localStorage st |}.

Definition setIsLoading (b : bool) (st : CartStore) : CartStore :=
  {| items := items st; isLoading := b; localStorage := localStorage st |}.

Definition onStorage (f : Storage → Storage) (st : CartStore) : CartStore :=
  {| items := items st; isLoading := isLoading st;
     localStorage := f (localStorage st) |}.

(** Both keys of the persisted slot are removed, item list first. *)
Definition removeSnapshot (st : CartStore) : CartStore :=
  onStorage (removeItem CART_TIMESTAMP_KEY)
    (onStorage (removeItem CART_STORAGE_KEY) st).

(** The four operations a consumer can call, as events. *)
Inductive mutation :=
| AddToCart (item : CartItem)
| RemoveFromCart (itemId : string)
| UpdateQuantity (itemId : string) (q : Z)
| ClearCart.

Section Cart.
Context {P : Platform}.

(** *** [useCartStorage] *)

(** [(currentTime - savedTime) / (1000 * 60 * 60)]; NaN when the stored
    timestamp is not a date. *)
Definition hoursPassed (currentTime : Z) (timestamp : string) : option Q :=
  match Date_parse timestamp with
  | Some savedTime =>
      Some (Qdiv (inject_Z (currentTime - savedTime))
                 (inject_Z (1000 * 60 * 60)))
  | None => None
  end.

(** [hoursPassed > CART_EXPIRY_HOURS]; a comparison with NaN is false. *)
Definition expired (currentTime : Z) (timestamp : string) : bool :=
  match hoursPassed currentTime timestamp with
  | Some h => match Qcompare h CART_EXPIRY_HOURS with
              | Gt => true
              | _ => false
              end
  | None => false
  end.

(** The body of the mount effect. *)
Definition loadCartData (currentTime : Z) (st : CartStore)
  : result CartStore :=
  let savedItems := getItem CART_STORAGE_KEY (localStorage st) in
  let timestamp := getItem CART_TIMESTAMP_KEY (localStorage st) in
  if truthy timestamp && expired currentTime (default EmptyString timestamp)
  then
    Returns (setIsLoading false (setItems (fun _ => []) (removeSnapshot st)))
  else if truthy savedItems then
    match JSON_parse (default EmptyString savedItems) with
    | Some parsed => Returns (setIsLoading false (setItems (fun _ => parsed) st))
    | None => Throws "SyntaxError"
    end
  else Returns (setIsLoading false st).

(** The persistence effect, as a function of the [items] and
    [isLoading] of the render that scheduled it. *)
Definition persistEffect (currentTime : Z) (renderedItems : list CartItem)
  (renderedIsLoading : bool) (ls : Storage) : Storage :=
  if negb renderedIsLoading && (0 <? length renderedItems)%nat
  then
    setItem CART_TIMESTAMP_KEY (Date_toISOString currentTime)
      (setItem CART_STORAGE_KEY (JSON_stringify renderedItems) ls)
  else ls.

(** The effect of the render that shows the current state. *)
Definition persist (currentTime : Z) (st : CartStore) : CartStore :=
  onStorage (persistEffect currentTime (items st) (isLoading st)) st.

(** Mounting the provider on a storage.  After the first render (the
    initial state) the load effect runs, then the persistence effect of
    that same render, which sees [isLoading = true].  The state set by
    the load causes a second render, and its persistence effect runs on
    the loaded state.  An exception in the load effect takes the
    component tree down. *)
Definition mount (loadTime persistTime : Z) (ls : Storage)
  : result CartStore :=
  let st0 := initialStore ls in
  match loadCartData loadTime st0 with
  | Returns st1 =>
      Returns (persist persistTime
                 (onStorage
                    (persistEffect loadTime (items st0) (isLoading st0))
                    st1))
  | Throws e => Throws e
  end.

(** *** [useCartOperations] and the provider's [clearCart] *)

Definition addToCart (item : CartItem) (st : CartStore) : CartStore :=
  setItems (Updater.addToCart item) st.

(** The updater deletes both keys itself when what it returns is
    empty. *)
Definition removeFromCart (itemId : string) (st : CartStore) : CartStore :=
  let newItems := Updater.removeFromCart itemId (items st) in
  let st' := if (length newItems =? 0)%nat then removeSnapshot st else st in
  setItems (fun _ => newItems) st'.

Definition updateQuantity (itemId : string) (q : Z) (st : CartStore)
  : CartStore :=
  setItems (Updater.updateQuantity itemId q) st.

Definition clearCart (st : CartStore) : CartStore :=
  removeSnapshot (setItems (fun _ => []) st).

Definition dispatch (m : mutation) (st : CartStore) : CartStore :=
  match m with
  | AddToCart item => addToCart item st
  | RemoveFromCart itemId => removeFromCart itemId st
  | UpdateQuantity itemId q => updateQuantity itemId q st
  | ClearCart => clearCart st
  end.

(** One user action: the operation, then the render it causes and the
    persistence effect of that render, at the time the effect reads. *)
Definition step (st : CartStore) (ev : Z * mutation) : CartStore :=
  persist ev.1 (dispatch ev.2 st).

Definition run (evs : list (Z * mutation)) (st : CartStore) : CartStore :=
  fold_left step evs st.

End Cart.

(** ** The single-file provider ([context/CartContext.tsx])

    It has the same load and persistence effects and the same
    [addToCart]; it has no [updateQuantity], and its [removeFromCart]
    calls [clearCart] from inside the updater instead of removing the two
    keys itself. *)
Module Monolithic.

Definition clearCart (st : CartStore) : CartStore :=
  removeSnapshot (setItems (fun _ => []) st).

(** Inside the updater, [clearCart()] removes the keys at once and
    queues its [setItems([])] behind the running updater, whose own
    result is the (empty) [newItems]. *)
Definition removeFromCart (itemId : string) (st : CartStore) : CartStore :=
  let newItems := Updater.removeFromCart itemId (items st) in
  if (length newItems =? 0)%nat
  then
    let queued := setItems (fun _ => []) in
    queued (setItems (fun _ => newItems) (removeSnapshot st))
  else setItems (fun _ => newItems) st.

End Monolithic.

(** ** A reference platform

    Executable versions of the four built-ins, for the values the cart
    writes: [JSON.stringify] of an array of cart items (keys in the order
    the pages build them, an undefined [imageUrl] left out, the string
    escapes of the standard), a parser for that compact text, the
    24-character form of [toISOString] and a parser for it.  Text in
    other shapes is not recognised by the two parsers. *)
Module Reference.

Local Open Scope string_scope.

Definition dquote : ascii := "034"%char.
Definition backslash : ascii := "092"%char.
Definition str (c : ascii) : string := String c EmptyString.

(** *** JSON text *)

Definition hex_digit (n : N) : ascii :=
  if (n <? 10)%N then ascii_of_N (48 + n) else ascii_of_N (87 + n).

Definition escape_char (c : ascii) : string :=
  let n := N_of_ascii c in
  if (n =? 34)%N then String backslash (str dquote)
  else if (n =? 92)%N then String backslash (str backslash)
  else if (n =? 8)%N then String backslash "b"
  else if (n =? 12)%N then String backslash "f"
  else if (n =? 10)%N then String backslash "n"
  else if (n =? 13)%N then String backslash "r"
  else if (n =? 9)%N then String backslash "t"
  else if (n <? 32)%N then
    String backslash
      ("u00" ++ String (hex_digit (n / 16)) (str (hex_digit (n mod 16))))
  else str c.

Fixpoint escape (s : string) : string :=
  match s with
  | EmptyString => EmptyString
  | String c s' => escape_char c ++ escape s'
  end.

Definition quote (s : string) : string :=
  String dquote (escape s ++ str dquote).

Definition print_number (z : Z) : string :=
  DecimalString.NilZero.string_of_int (Z.to_int z).

Definition print_member (k v : string) : string := quote k ++ ":" ++ v.

(** The members of a cart item, in the order in which the pages list
    them; an [imageUrl] that is [undefined] is left out. *)
Definition print_members (i : CartItem) : string :=
  print_member "id" (quote (id i))
  ++ "," ++ print_member "name" (quote (name i))
  ++ "," ++ print_member "price" (print_number (price i))
  ++ "," ++ print_member "quantity" (print_number (quantity i))
  ++ match imageUrl i with
     | Some u => "," ++ print_member "imageUrl" (quote u)
     | None => EmptyString
     end.

Definition print_item (i : CartItem) : string :=
  "{" ++ print_members i ++ "}".

Fixpoint print_items (l : list CartItem) : string :=
  match l with
  | [] => EmptyString
  | [i] => print_item i
  | i :: l' => print_item i ++ "," ++ print_items l'
  end.

Definition stringify (l : list CartItem) : string :=
  "[" ++ print_items l ++ "]".

(** The JSON values without nesting: what the fields of a cart item
    hold. *)
Inductive jvalue :=
| JNull
| JNumber (z : Z)
| JString (s : string).

Definition is_digit (c : ascii) : bool :=
  let n := N_of_ascii c in (48 <=? n)%N && (n <=? 57)%N.

Fixpoint span_digits (s : string) : string * string :=
  match s with
  | String c s' =>
      if is_digit c
      then let (d, r) := span_digits s' in (String c d, r)
      else (EmptyString, s)
  | EmptyString => (EmptyString, EmptyString)
  end.

(** Digits that make a numeral: at least one, and no zero in front of
    others. *)
Definition plain_digits (d : string) : bool :=
  match d with
  | EmptyString => false
  | String c d' => negb (Ascii.eqb c "0") || bool_decide (d' = EmptyString)
  end.

Definition parse_digits (s : string) : option (Z * string) :=
  let (d, rest) := span_digits s in
  if plain_digits d then
    match DecimalString.NilEmpty.uint_of_string d with
    | Some u => Some (Z.of_uint u, rest)
    | None => None
    end
  else None.

(** An integer literal: an optional minus sign, then the digits. *)
Definition parse_number (s : string) : option (Z * string) :=
  match s with
  | String c r =>
      if Ascii.eqb c "-"
      then match parse_digits r with
           | Some (z, rest) => Some (- z, rest)
           | None => None
           end
      else parse_digits s
  | EmptyString => None
  end.

Definition hex_value (c : ascii) : option N :=
  let n := N_of_ascii c in
  if (48 <=? n)%N && (n <=? 57)%N then Some (n - 48)%N
  else if (97 <=? n)%N && (n <=? 102)%N then Some (n - 87)%N
  else if (65 <=? n)%N && (n <=? 70)%N then Some (n - 55)%N
  else None.

Definition hex4 (a b c d : ascii) : option N :=
  match hex_value a, hex_value b, hex_value c, hex_value d with
  | Some x, Some y, Some z, Some w => Some (((x * 16 + y) * 16 + z) * 16 + w)%N
  | _, _, _, _ => None
  end.

Definition unescape (c : ascii) : option ascii :=
  if Ascii.eqb c dquote then Some dquote
  else if Ascii.eqb c backslash then Some backslash
  else if Ascii.eqb c "/" then Some "/"%char
  else if Ascii.eqb c "b" then Some "008"%char
  else if Ascii.eqb c "f" then Some "012"%char
  else if Ascii.eqb c "n" then Some "010"%char
  else if Ascii.eqb c "r" then Some "013"%char
  else if Ascii.eqb c "t" then Some "009"%char
  else None.

Definition prepend (c : ascii) (r : option (string * string))
  : option (string * string) :=
  match r with
  | Some (body, rest) => Some (String c body, rest)
  | None => None
  end.

(** The characters after an opening quote, up to the closing one. *)
Fixpoint parse_string_body (s : string) : option (string * string) :=
  match s with
  | EmptyString => None
  | String c s' =>
      if Ascii.eqb c dquote then Some (EmptyString, s')
      else if Ascii.eqb c backslash then
        match s' with
        | EmptyString => None
        | String e s'' =>
            if Ascii.eqb e "u" then
              match s'' with
              | String h1 (String h2 (String h3 (String h4 r))) =>
                  match hex4 h1 h2 h3 h4 with
                  | Some n =>
                      if (n <? 128)%N
                      then prepend (ascii_of_N n) (parse_string_body r)
                      else None
                  | None => None
                  end
              | _ => None
              end
            else
              match unescape e with
              | Some ch => prepend ch (parse_string_body s'')
              | None => None
              end
        end
      else if (N_of_ascii c <? 32)%N then None
      else prepend c (parse_string_body s')
  end.

Definition parse_string (s : string) : option (string * string) :=
  match s with
  | String c s' => if Ascii.eqb c dquote then parse_string_body s' else None
  | EmptyString => None
  end.

Definition parse_value (s : string) : option (jvalue * string) :=
  match s with
  | String c r =>
      if Ascii.eqb c dquote
      then match parse_string s with
           | Some (v, rest) => Some (JString v, rest)
           | None => None
           end
      else if Ascii.eqb c "n"
      then match r with
           | String "u" (String "l" (String "l" rest)) => Some (JNull, rest)
           | _ => None
           end
      else match parse_number s with
           | Some (z, rest) => Some (JNumber z, rest)
           | None => None
           end
  | EmptyString => None
  end.

(** The members of an object, after the opening brace, when there is
    at least one. *)
Fixpoint parse_members (fuel : nat) (s : string)
  : option (list (string * jvalue) * string) :=
  match fuel with
  | O => None
  | S fuel' =>
      match parse_string s with
      | Some (k, String ":" r) =>
          match parse_value r with
          | Some (v, String "," r') =>
              match parse_members fuel' r' with
              | Some (ms, r'') => Some ((k, v) :: ms, r'')
              | None => None
              end
          | Some (v, String "}" r') => Some ([(k, v)], r')
          | _ => None
          end
      | _ => None
      end
  end.

Definition parse_object (s : string)
  : option (list (string * jvalue) * string) :=
  match s with
  | String "{" (String "}" r) => Some ([], r)
  | String "{" r => parse_members (String.length r) r
  | _ => None
  end.

(** Property lookup; of two members with one key the later one counts. *)
Fixpoint member (k : string) (ms : list (string * jvalue)) : option jvalue :=
  match ms with
  | [] => None
  | (k', v) :: ms' =>
      match member k ms' with
      | Some v' => Some v'
      | None => if String.eqb k k' then Some v else None
      end
  end.

(** An object read as a cart item; objects that do not have the shape
    of the type are not recognised. *)
Definition decode_item (ms : list (string * jvalue)) : option CartItem :=
  match member "id" ms, member "name" ms,
        member "price" ms, member "quantity" ms with
  | Some (JString i), Some (JString n), Some (JNumber p), Some (JNumber q) =>
      match member "imageUrl" ms with
      | None => Some (mkCartItem i n p q None)
      | Some (JString u) => Some (mkCartItem i n p q (Some u))
      | Some _ => None
      end
  | _, _, _, _ => None
  end.

(** The elements of an array, after the opening bracket, when there is
    at least one. *)
Fixpoint parse_elements (fuel : nat) (s : string)
  : option (list CartItem * string) :=
  match fuel with
  | O => None
  | S fuel' =>
      match parse_object s with
      | Some (ms, r) =>
          match decode_item ms, r with
          | Some i, String "," r' =>
              match parse_elements fuel' r' with
              | Some (l, r'') => Some (i :: l, r'')
              | None => None
              end
          | Some i, String "]" r' => Some ([i], r')
          | _, _ => None
          end
      | None => None
      end
  end.

Definition parse (s : string) : option (list CartItem) :=
  match s with
  | String "[" (String "]" EmptyString) => Some []
  | String "[" r =>
      match parse_elements (String.length r) r with
      | Some (l, EmptyString) => Some l
      | _ => None
      end
  | _ => None
  end.

(** *** ISO-8601 timestamps *)

Local Open Scope Z_scope.

Definition MS_PER_DAY : Z := 24 * 60 * 60 * 1000.

(** Day number (days since 1970-01-01) to proleptic Gregorian year,
    month and day, counting in 400-year eras that start on 1 March. *)
Definition civil_from_days (days : Z) : Z * Z * Z :=
  let z := days + 719468 in
  let era := z / 146097 in
  let doe := z - era * 146097 in
  let yoe := (doe - doe / 1460 + doe / 36524 - doe / 146096) / 365 in
  let doy := doe - (365 * yoe + yoe / 4 - yoe / 100) in
  let mp := (5 * doy + 2) / 153 in
  let d := doy - (153 * mp + 2) / 5 + 1 in
  let m := if mp <? 10 then mp + 3 else mp - 9 in
  let y := yoe + era * 400 + (if m <=? 2 then 1 else 0) in
  (y, m, d).

Definition days_from_civil (y m d : Z) : Z :=
  let y' := if m <=? 2 then y - 1 else y in
  let era := y' / 400 in
  let yoe := y' - era * 400 in
  let mp := if 2 <? m then m - 3 else m + 9 in
  let doy := (153 * mp + 2) / 5 + d - 1 in
  let doe := yoe * 365 + yoe / 4 - yoe / 100 + doy in
  era * 146097 + doe - 719468.

Definition digit (n : Z) : ascii := ascii_of_N (48 + Z.to_N n).

(** The last [w] decimal digits of [n], zero-padded. *)
Fixpoint pad (w : nat) (n : Z) : string :=
  match w with
  | O => EmptyString
  | S w' => pad w' (n / 10) ++ str (digit (n mod 10))
  end.

(** Years 0 to 9999 take four digits, the others a sign and six. *)
Definition print_year (y : Z) : string :=
  if (0 <=? y) && (y <=? 9999) then pad 4 y
  else (if y <? 0 then "-" else "+") ++ pad 6 (Z.abs y).

Definition toISOString (t : Z) : string :=
  let '(y, m, d) := civil_from_days (t / MS_PER_DAY) in
  let r := t mod MS_PER_DAY in
  print_year y ++ "-" ++ pad 2 m ++ "-" ++ pad 2 d
  ++ "T" ++ pad 2 (r / 3600000) ++ ":" ++ pad 2 (r / 60000 mod 60)
  ++ ":" ++ pad 2 (r / 1000 mod 60) ++ "." ++ pad 3 (r mod 1000) ++ "Z".

(** Exactly [w] digits. *)
Fixpoint read_digits (w : nat) (acc : Z) (s : string) : option (Z * string) :=
  match w with
  | O => Some (acc, s)
  | S w' =>
      match s with
      | String c s' =>
          if is_digit c
          then read_digits w' (acc * 10 + (Z.of_N (N_of_ascii c) - 48)) s'
          else None
      | EmptyString => None
      end
  end.

Definition expect (c : ascii) (s : string) : option string :=
  match s with
  | String c' s' => if Ascii.eqb c c' then Some s' else None
  | EmptyString => None
  end.

Definition read_year (s : string) : option (Z * string) :=
  match s with
  | String "+" s' => read_digits 6 0 s'
  | String "-" s' =>
      match read_digits 6 0 s' with
      | Some (y, r) => if y =? 0 then None else Some (- y, r)
      | None => None
      end
  | _ => read_digits 4 0 s
  end.

(** Milliseconds since the epoch of a timestamp in the form that
    [toISOString] writes; the day has to be one of its month, and the
    year zero takes no minus sign. *)
Definition parse_date (s : string) : option Z :=
  '(y, s) ← read_year s;
  s ← expect "-" s;
  '(m, s) ← read_digits 2 0 s;
  s ← expect "-" s;
  '(d, s) ← read_digits 2 0 s;
  s ← expect "T" s;
  '(hh, s) ← read_digits 2 0 s;
  s ← expect ":" s;
  '(mm, s) ← read_digits 2 0 s;
  s ← expect ":" s;
  '(ss, s) ← read_digits 2 0 s;
  s ← expect "." s;
  '(ms, s) ← read_digits 3 0 s;
  s ← expect "Z" s;
  if bool_decide (s = EmptyString)
     && (1 <=? m) && (m <=? 12) && (1 <=? d) && (d <=? 31)
     && (hh <? 24) && (mm <? 60) && (ss <? 60)
     && bool_decide (civil_from_days (days_from_civil y m d) = (y, m, d))
  then Some (days_from_civil y m d * MS_PER_DAY
             + ((hh * 60 + mm) * 60 + ss) * 1000 + ms)
  else None.

(** *** What the parsers are expected to meet *)

(** The text goes on with something that is not a digit. *)
Definition not_digit_start (rest : string) : Prop :=
  match rest with
  | String c _ => is_digit c = false
  | EmptyString => True
  end.

(** A numeral as [Z.to_int] makes them: a lone zero, or digits that
    start with a non-zero one. *)
Definition canonical (u : Decimal.uint) : Prop :=
  match u with
  | Decimal.Nil => False
  | Decimal.D0 u' => u' = Decimal.Nil
  | _ => True
  end.

(** The members that [print_members] writes, as values. *)
Definition members_of (i : CartItem) : list (string * jvalue) :=
  [("id", JString (id i)); ("name", JString (name i));
   ("price", JNumber (price i)); ("quantity", JNumber (quantity i))]
  ++ match imageUrl i with
     | Some u => [("imageUrl", JString u)]
     | None => []
     end.

#[export] Instance platform : Platform := {|
  JSON_stringify := stringify;
  JSON_parse := parse;
  Date_toISOString := toISOString;
  Date_parse := parse_date
|}.

End Reference.

(** ** What a consumer sees: the context and [useCart] *)

Module CartContext.

(** [type CartContextType]: the state of the render that provided the
    value, and the operations as transformers of the store. *)
Record CartContextType := {
  ctx_items : list CartItem;
  ctx_addToCart : CartItem → CartStore → CartStore;
  ctx_removeFromCart : string → CartStore → CartStore;
  ctx_updateQuantity : string → Z → CartStore → CartStore;
  ctx_clearCart : CartStore → CartStore;
  ctx_isLoading : bool
}.

(** The [value] that [CartProvider] passes down when it renders [st]. *)
Definition provide (st : CartStore) : CartContextType :=
  {| ctx_items := items st;
     ctx_addToCart := addToCart;
     ctx_removeFromCart := removeFromCart;
     ctx_updateQuantity := updateQuantity;
     ctx_clearCart := clearCart;
     ctx_isLoading := isLoading st |}.

(** [useContext(CartContext)] in a component whose enclosing providers
    (nearest first) have the given values; the default value of the
    context is [undefined]. *)
Definition useContext (providers : list CartContextType)
  : option CartContextType :=
  head providers.

Definition useCart (providers : list CartContextType)
  : result CartContextType :=
  match useContext providers with
  | None => Throws "useCart must be used within a CartProvider"
  | Some context => Returns context
  end.

(** A consumer that obtains the interface and calls one operation on
    the store. *)
Definition call (providers : list CartContextType) (m : mutation)
  (st : CartStore) : result CartStore :=
  match useCart providers with
  | Throws e => Throws e
  | Returns context =>
      Returns match m with
              | AddToCart item => ctx_addToCart context item st
              | RemoveFromCart itemId => ctx_removeFromCart context itemId st
              | UpdateQuantity itemId q => ctx_updateQuantity context itemId q st
              | ClearCart => ctx_clearCart context st
              end
  end.

End CartContext.

(** ** The cart page ([app/cart/page.tsx]) *)

(** [items.reduce((total, item) => total + item.price * item.quantity, 0)]. *)
Definition cartTotal (l : list CartItem) : Z :=
  fold_left (fun total item => total + price item * quantity item) l 0.

(** One card of the list: the image when [item.imageUrl] is truthy, the
    name, the quantity, the price, and the id that the delete button
    hands to [removeFromCart]. *)
Record CartRow := mkCartRow {
  row_image : option string;
  row_name : string;
  row_quantity : Z;
  row_price : Z;
  row_delete : string
}.

Definition cartRow (item : CartItem) : CartRow :=
  {| row_image := if truthy (imageUrl item) then imageUrl item else None;
     row_name := name item;
     row_quantity := quantity item;
     row_price := price item;
     row_delete := id item |}.

(** What the page shows. *)
Inductive CartView :=
| LoadingView
| EmptyView
| ListView (rows : list CartRow) (total : Z).

(** The body of [CartPage] once [useCart] has returned. *)
Definition CartPage (context : CartContext.CartContextType) : CartView :=
  if CartContext.ctx_isLoading context then LoadingView
  else if (length (CartContext.ctx_items context) =? 0)%nat then EmptyView
  else ListView (cartRow <$> CartContext.ctx_items context)
                (cartTotal (CartContext.ctx_items context)).

(** ** The product page ([app/products/[id]/page.tsx]) *)

Module ProductDetail.

Record Product := mkProduct {
  id : string;
  name : string;
  description : string;
  price : Z;
  imageUrl : string
}.

Definition mockProducts : list Product :=
  [ mkProduct "1" "商品A" "これは商品Aの詳細な説明です。" 1000
      "/images/product-a.jpg";
    mkProduct "2" "商品B" "これは商品Bの詳細な説明です。" 2000
      "/images/product-b.jpg";
    mkProduct "3" "商品C" "これは商品Cの詳細な説明です。" 3000
      "/images/product-c.jpg" ].

(** [mockProducts.find((p) => p.id === id)], for the id of the URL. *)
Definition findProduct (urlId : string) : option Product :=
  List.find (fun p => bool_decide (id p = urlId)) mockProducts.

(** The item that the button adds: the product, with quantity 1. *)
Definition cartItemOf (product : Product) (q : Z) : CartItem :=
  mkCartItem (id product) (name product) (price product) q
    (Some (imageUrl product)).

Definition handleAddToCart (product : Product) (st : CartStore) : CartStore :=
  addToCart (cartItemOf product 1) st.

(** A click on the button of the page for [urlId]; the page of an
    unknown product has no button. *)
Definition clickAddToCart (urlId : string) (st : CartStore) : CartStore :=
  match findProduct urlId with
  | Some product => handleAddToCart product st
  | None => st
  end.

End ProductDetail.

(** ** The shop as the pages wire it *)

(** What a visitor can do to the cart: press the button of a product
    page, or the delete button of the [k]-th card of the cart page. *)
Inductive click :=
| ClickAddToCart (urlId : string)
| ClickDelete (k : nat).

Definition clicked (c : click) (st : CartStore) : CartStore :=
  match c with
  | ClickAddToCart urlId => ProductDetail.clickAddToCart urlId st
  | ClickDelete k =>
      match items st !! k with
      | Some item => removeFromCart (row_delete (cartRow item)) st
      | None => st
      end
  end.

(** Whether the click meets a button: the page of a known product has
    one, and so has a card that is in the list. *)
Definition on_button (c : click) (st : CartStore) : bool :=
  match c with
  | ClickAddToCart urlId =>
      match ProductDetail.findProduct urlId with
      | Some _ => true
      | None => false
      end
  | ClickDelete k =>
      match items st !! k with
      | Some _ => true
      | None => false
      end
  end.

Section Shop.
Context {P : Platform}.

(** A click on a button sets the state, and the effect of the render
    that follows runs; a click elsewhere sets nothing, and nothing
    runs. *)
Definition shopStep (st : CartStore) (ev : Z * click) : CartStore :=
  if on_button ev.2 st then persist ev.1 (clicked ev.2 st) else st.

Definition shopRun (evs : list (Z * click)) (st : CartStore) : CartStore :=
  fold_left shopStep evs st.

End Shop.

(** ** The first provider ([components/CartProvider.tsx])

    The same four operations on a list that is not persisted; its items
    have no [imageUrl]. *)
Module LegacyProvider.

Record CartItem := mkCartItem {
  id : string;
  name : string;
  price : Z;
  quantity : Z
}.

Definition addItem (newItem : CartItem) (currentItems : list CartItem)
  : list CartItem :=
  match List.find (fun item => bool_decide (id item = id newItem))
          currentItems with
  | Some _existingItem =>
      List.map (fun item =>
                  if bool_decide (id item = id newItem)
                  then {| id := id item; name := name item;
                          price := price item;
                          quantity := quantity item + quantity newItem |}
                  else item) currentItems
  | None => currentItems ++ [newItem]
  end.

Definition removeItem (itemId : string) (currentItems : list CartItem)
  : list CartItem :=
  List.filter (fun item => negb (bool_decide (id item = itemId))) currentItems.

Definition updateQuantity (itemId : string) (q : Z)
  (currentItems : list CartItem) : list CartItem :=
  List.map (fun item =>
              if bool_decide (id item = itemId)
              then {| id := id item; name := name item;
                      price := price item; quantity := q |}
              else item) currentItems.

Definition clearCart (currentItems : list CartItem) : list CartItem := [].

End LegacyProvider.

(** A cart item as the first provider types it. *)
Definition legacyItem (i : CartItem) : LegacyProvider.CartItem :=
  LegacyProvider.mkCartItem (id i) (name i) (price i) (quantity i).

(** A mutation as a call on the first provider. *)
Definition legacyDispatch (m : mutation)
  (currentItems : list LegacyProvider.CartItem)
  : list LegacyProvider.CartItem :=
  match m with
  | AddToCart item => LegacyProvider.addItem (legacyItem item) currentItems
  | RemoveFromCart itemId => LegacyProvider.removeItem itemId currentItems
  | UpdateQuantity itemId q => LegacyProvider.updateQuantity itemId q currentItems
  | ClearCart => LegacyProvider.clearCart currentItems
  end.

(** ** The numbers as the browser has them

    The updaters, the total of the cart page and the JSON text of a
    collection, over IEEE 754 doubles: [+] and [*] round to the nearest
    double, ties to even. *)
Module Binary64.

Definition number : Type := spec_float.

Definition add : number → number → number := SFadd 53 1024.
Definition mul : number → number → number := SFmul 53 1024.

(** The double that an integer literal (or an integer numeral of JSON
    text) denotes: the nearest one. *)
Definition of_Z (z : Z) : number := binary_normalize 53 1024 z 0 false.


(** The integer that a double is, when it is one. *)
Definition integer_value (x : number) : option Z :=
  match x with
  | S754_zero _ => Some 0
  | S754_finite s m e =>
      if 0 <=? e then Some (cond_Zopp s (Zpos m * 2 ^ e))
      else if Zpos m mod 2 ^ (- e) =? 0
           then Some (cond_Zopp s (Zpos m / 2 ^ (- e)))
           else None
  | S754_infinity _ | S754_nan => None
  end.

Record CartItem := mkCartItem {
  id : string;
  name : string;
  price : number;
  quantity : number;
  imageUrl : option string
}.

Definition with_quantity (i : CartItem) (q : number) : CartItem :=
  {| id := id i; name := name i; price := price i;
     quantity := q; imageUrl := imageUrl i |}.

(** [addToCart], with [i.quantity + item.quantity] on doubles. *)
Definition addToCart (item : CartItem) (prevItems : list CartItem)
  : list CartItem :=
  match List.find (fun i => bool_decide (id i = id item)) prevItems with
  | Some _existingItem =>
      List.map (fun i =>
                  if bool_decide (id i = id item)
                  then with_quantity i (add (quantity i) (quantity item))
                  else i) prevItems
  | None => prevItems ++ [item]
  end.

Definition removeFromCart (itemId : string) (prevItems : list CartItem)
  : list CartItem :=
  List.filter (fun item => negb (bool_decide (id item = itemId))) prevItems.

Definition updateQuantity (itemId : string) (q : number)
  (prevItems : list CartItem) : list CartItem :=
  List.map (fun item =>
              if bool_decide (id item = itemId)
              then with_quantity item q else item) prevItems.

Inductive mutation :=
| AddToCart (item : CartItem)
| RemoveFromCart (itemId : string)
| UpdateQuantity (itemId : string) (q : number)
| ClearCart.

(** The collection after a mutation. *)
Definition apply (prevItems : list CartItem) (m : mutation) : list CartItem :=
  match m with
  | AddToCart item => addToCart item prevItems
  | RemoveFromCart itemId => removeFromCart itemId prevItems
  | UpdateQuantity itemId q => updateQuantity itemId q prevItems
  | ClearCart => []
  end.

(** [items.reduce((total, item) => total + item.price * item.quantity, 0)]. *)
Definition cartTotal (l : list CartItem) : number :=
  fold_left (fun total item => add total (mul (price item) (quantity item)))
    l (of_Z 0).

(** *** JSON text

    [JSON.stringify] writes NaN and the infinities as [null], and an
    integer of magnitude at most 2^53 with all its digits.  The shortest
    digits that it writes for the other doubles are not modelled: there
    [print_number] gives nothing. *)
Definition print_number (x : number) : option string :=
  match x with
  | S754_nan | S754_infinity _ => Some "null"%string
  | _ =>
      match integer_value x with
      | Some z =>
          if Z.abs z <=? 2 ^ 53 then Some (Reference.print_number z) else None
      | None => None
      end
  end.

Definition print_members (i : CartItem) : option string :=
  p ← print_number (price i);
  q ← print_number (quantity i);
  Some (Reference.print_member "id" (Reference.quote (id i))
        ++ "," ++ Reference.print_member "name" (Reference.quote (name i))
        ++ "," ++ Reference.print_member "price" p
        ++ "," ++ Reference.print_member "quantity" q
        ++ match imageUrl i with
           | Some u => "," ++ Reference.print_member "imageUrl" (Reference.quote u)
           | None => EmptyString
           end)%string.

Definition print_item (i : CartItem) : option string :=
  members ← print_members i; Some ("{" ++ members ++ "}")%string.

Fixpoint print_items (l : list CartItem) : option string :=
  match l with
  | [] => Some EmptyString
  | [i] => print_item i
  | i :: l' =>
      first ← print_item i; others ← print_items l';
      Some (first ++ "," ++ others)%string
  end.

Definition stringify (l : list CartItem) : option string :=
  text ← print_items l; Some ("[" ++ text ++ "]")%string.

End Binary64.

(** A cart item of the integer model as the doubles hold it, and a
    mutation likewise. *)
Definition embed (i : CartItem) : Binary64.CartItem :=
  Binary64.mkCartItem (id i) (name i) (Binary64.of_Z (price i))
    (Binary64.of_Z (quantity i)) (imageUrl i).


(** * The vocabulary of the statements *)

(** Twenty-four hours, in the unit of the clock. *)
Definition EXPIRY_MS : Z := 24 * (1000 * 60 * 60).

(** Neither key of the slot is in the storage. *)
Definition slot_absent (ls : Storage) : Prop :=
  getItem CART_STORAGE_KEY ls = None ∧ getItem CART_TIMESTAMP_KEY ls = None.

(** What a mutation is handed as a quantity is at least one. *)
Definition positive_input (m : mutation) : Prop :=
  match m with
  | AddToCart item => 1 ≤ quantity item
  | UpdateQuantity _ q => 1 ≤ q
  | RemoveFromCart _ | ClearCart => True
  end.


(** The times a [Date] can hold: 100 million days either side of the
    epoch. *)
Definition valid_time (t : Z) : Prop :=
  -8640000000000000 ≤ t ≤ 8640000000000000.

(** The integers that the doubles hold together with all their
    neighbours: those of magnitude at most 2^53.  On them the integer
    model and the doubles agree. *)
Definition exact_integer (z : Z) : Prop := Z.abs z ≤ 2 ^ 53.

Definition exact_item (e : CartItem) : Prop :=
  exact_integer (price e) ∧ exact_integer (quantity e).


(** A price in whole yen and a count: integers from 0 to 2^53. *)
Definition countable (e : CartItem) : Prop :=
  0 ≤ price e ≤ 2 ^ 53 ∧ 0 ≤ quantity e ≤ 2 ^ 53.

Section Vocabulary.
Context {P : Platform}.

(** The timestamp does not make the load discard the snapshot: there is
    none, or it marks a time at most 24 hours back. *)
Definition unexpired (t : Z) (ls : Storage) : Prop :=
  getItem CART_TIMESTAMP_KEY ls = None
  ∨ ∃ ts saved, getItem CART_TIMESTAMP_KEY ls = Some ts
              ∧ Date_parse ts = Some saved ∧ t - saved ≤ EXPIRY_MS.

(** The built-ins give back what they were given, for this collection
    and this time: the text of the collection is not empty and parses to
    the collection, and the text of the time parses to the time. *)
Definition codec_faithful_on (l : list CartItem) (t : Z) : Prop :=
  JSON_stringify l ≠ EmptyString
  ∧ JSON_parse (JSON_stringify l) = Some l
  ∧ Date_parse (Date_toISOString t) = Some t.

End Vocabulary.

(** ** The lifetime of a browser *)

(** The browser over its lifetime: the page is closed (or has crashed
    while loading) and only the storage is there, or the provider is
    mounted and its load has completed. *)
Inductive browser :=
| Closed (ls : Storage)
| Open (st : CartStore).

Definition storage_of (b : browser) : Storage :=
  match b with
  | Closed ls => ls
  | Open st => localStorage st
  end.

(** What happens to it: the page is loaded (again), or the user triggers
    a cart operation. *)
Inductive event :=
| Visit (loadTime persistTime : Z)
| Act (t : Z) (m : mutation).

Section Lifetime.
Context {P : Platform}.

Definition browse (b : browser) (ev : event) : browser :=
  match ev with
  | Visit loadTime persistTime =>
      match mount loadTime persistTime (storage_of b) with
      | Returns st => Open st
      | Throws _ => Closed (storage_of b)
      end
  | Act t m =>
      match b with
      | Open st => Open (step st (t, m))
      | Closed ls => Closed ls
      end
  end.

(** A browser that has never run the shop. *)
Definition freshBrowser : browser := Closed ∅.

(** The slot holds nothing, or the serialization of a non-empty
    collection together with a timestamp written by the effect. *)
Definition slot_ok (ls : Storage) : Prop :=
  slot_absent ls
  ∨ ∃ (l : list CartItem) (t : Z),
      l ≠ []
      ∧ getItem CART_STORAGE_KEY ls = Some (JSON_stringify l)
      ∧ getItem CART_TIMESTAMP_KEY ls = Some (Date_toISOString t).

(** While the page is open the slot mirrors a non-empty collection. *)
Definition mirrored (st : CartStore) : Prop :=
  isLoading st = false
  ∧ (items st ≠ [] →
     getItem CART_STORAGE_KEY (localStorage st)
     = Some (JSON_stringify (items st))).

Definition browser_ok (b : browser) : Prop :=
  slot_ok (storage_of b)
  ∧ match b with
    | Open st => mirrored st
    | Closed _ => True
    end.

End Lifetime.

(** ** Sample data *)

(** Two products of the mock catalogue as cart items, the second
    without its image. *)
Definition productA (q : Z) : CartItem :=
  mkCartItem "1" "商品A" 1000 q (Some "/images/product-a.jpg").
Definition productB (q : Z) : CartItem :=
  mkCartItem "2" "商品B" 2000 q None.

(** A store whose load has completed. *)
Definition readyStore (l : list CartItem) (ls : Storage) : CartStore :=
  {| items := l; isLoading := false; localStorage := ls |}.

(** A storage that holds a snapshot though the collection is empty. *)
Definition staleStorage : Storage :=
  <[CART_TIMESTAMP_KEY := "2024-11-03T02:00:00.123Z"]>
    (<[CART_STORAGE_KEY := "[]"]> ∅).

(** The storage after one product was put into a fresh cart. *)
Definition storageWithProductA : Storage :=
  localStorage
    (step (P := Reference.platform) (readyStore [] ∅)
       (1730599200123, AddToCart (productA 1))).

(** Product A as the doubles hold it, in any quantity. *)
Definition productA64 (q : Binary64.number) : Binary64.CartItem :=
  Binary64.mkCartItem "1" "商品A" (Binary64.of_Z 1000) q
    (Some "/images/product-a.jpg").



(** ** More vocabulary and samples *)

Section LoadVocabulary.
Context {P : Platform}.

(** The snapshot is text that [JSON.parse] rejects, and nothing will make
    the load discard it: there is no timestamp, or one that is not a
    date. *)
Definition corrupt_for_good (ls : Storage) : Prop :=
  (∃ s, getItem CART_STORAGE_KEY ls = Some s ∧ s ≠ EmptyString
        ∧ JSON_parse s = None)
  ∧ (getItem CART_TIMESTAMP_KEY ls = None
     ∨ ∃ ts, getItem CART_TIMESTAMP_KEY ls = Some ts ∧ Date_parse ts = None).

End LoadVocabulary.

(** An entry that a product page can have put into the cart: a product of
    the catalogue with its name, price and image, in a quantity of at
    least one. *)
Definition from_catalogue (e : CartItem) : Prop :=
  1 ≤ quantity e
  ∧ ∃ product, product ∈ ProductDetail.mockProducts
               ∧ e = ProductDetail.cartItemOf product (quantity e).

Definition shop_ok (l : list CartItem) : Prop :=
  Forall from_catalogue l ∧ NoDup (id <$> l).

(** A storage whose timestamp is not a date, and one whose item list is
    not JSON and has no timestamp. *)
Definition storageWithBadTimestamp : Storage :=
  <[CART_TIMESTAMP_KEY := "yesterday"]> storageWithProductA.
Definition storageWithBadItems : Storage :=
  <[CART_STORAGE_KEY := "{oops"]> ∅.

(** * Properties *)

(** ** The updaters *)

Section UpdaterFacts.
Implicit Types (prevItems : list CartItem) (item e : CartItem).

Lemma find_by_id_Some prevItems (itemId : string) :
  (∃ e, e ∈ prevItems ∧ id e = itemId) →
  ∃ e, List.find (fun i => bool_decide (id i = itemId)) prevItems = Some e.
Proof.
  intros (e & Hin & Hid).
  destruct (List.find _ prevItems) as [x|] eqn:Hfind; [by eexists|].
  apply list_elem_of_In in Hin.
  pose proof (find_none _ _ Hfind e Hin) as Hno.
  by rewrite bool_decide_eq_false in Hno.
Qed.

Lemma find_by_id_None prevItems (itemId : string) :
  (¬ ∃ e, e ∈ prevItems ∧ id e = itemId) →
  List.find (fun i => bool_decide (id i = itemId)) prevItems = None.
Proof.
  intros Hno.
  destruct (List.find _ prevItems) as [x|] eqn:Hfind; [|done].
  apply find_some in Hfind as [Hin Hid].
  exfalso. apply Hno. exists x. split; [by apply list_elem_of_In|].
  by apply bool_decide_eq_true in Hid.
Qed.

Lemma addToCart_present prevItems item :
  (∃ e, e ∈ prevItems ∧ id e = id item) →
  Updater.addToCart item prevItems =
  List.map (fun i => if bool_decide (id i = id item)
                     then with_quantity i (quantity i + quantity item)
                     else i) prevItems.
Proof.
  intros Hex. unfold Updater.addToCart.
  by destruct (find_by_id_Some _ _ Hex) as [x ->].
Qed.

Lemma addToCart_absent prevItems item :
  (¬ ∃ e, e ∈ prevItems ∧ id e = id item) →
  Updater.addToCart item prevItems = prevItems ++ [item].
Proof.
  intros Hno. unfold Updater.addToCart.
  by rewrite (find_by_id_None _ _ Hno).
Qed.

Lemma removeFromCart_absent prevItems (itemId : string) :
  (∀ e, e ∈ prevItems → id e ≠ itemId) →
  Updater.removeFromCart itemId prevItems = prevItems.
Proof.
  unfold Updater.removeFromCart.
  induction prevItems as [|a l IH]; intros Hall; [done|].
  cbn. rewrite bool_decide_eq_false_2 by (apply Hall; left).
  cbn. f_equal. apply IH. intros e He. apply Hall. by right.
Qed.

Lemma removeFromCart_all prevItems (itemId : string) :
  Forall (fun e => id e = itemId) prevItems →
  Updater.removeFromCart itemId prevItems = [].
Proof.
  unfold Updater.removeFromCart.
  induction 1 as [|a l Ha _ IH]; [done|].
  cbn. by rewrite bool_decide_eq_true_2.
Qed.

Lemma ids_removeFromCart prevItems (itemId : string) :
  id <$> Updater.removeFromCart itemId prevItems =
  List.filter (fun k => negb (bool_decide (k = itemId))) (id <$> prevItems).
Proof.
  unfold Updater.removeFromCart.
  induction prevItems as [|a l IH]; [done|].
  cbn. destruct (bool_decide (id a = itemId)); cbn; by rewrite IH.
Qed.

Lemma ids_updateQuantity prevItems (itemId : string) (q : Z) :
  id <$> Updater.updateQuantity itemId q prevItems = id <$> prevItems.
Proof.
  unfold Updater.updateQuantity.
  induction prevItems as [|a l IH]; [done|].
  cbn. rewrite <- IH. by destruct (bool_decide (id a = itemId)).
Qed.

Lemma ids_addToCart_present prevItems item :
  id <$> List.map (fun i => if bool_decide (id i = id item)
                            then with_quantity i (quantity i + quantity item)
                            else i) prevItems
  = id <$> prevItems.
Proof.
  induction prevItems as [|a l IH]; [done|].
  cbn. rewrite <- IH. by destruct (bool_decide (id a = id item)).
Qed.

Lemma NoDup_filter_bool {A} (f : A → bool) (l : list A) :
  NoDup l → NoDup (List.filter f l).
Proof.
  induction 1 as [|x l Hx _ IH]; cbn; [constructor|].
  destruct (f x); [|done].
  constructor; [|done].
  intros Hin. apply Hx.
  apply list_elem_of_In, filter_In in Hin as [Hin _].
  by apply list_elem_of_In.
Qed.

(** Each updater keeps the ids of the collection pairwise distinct. *)
Lemma addToCart_NoDup prevItems item :
  NoDup (id <$> prevItems) → NoDup (id <$> Updater.addToCart item prevItems).
Proof.
  intros Hnd.
  destruct (decide (Exists (fun e => id e = id item) prevItems)) as [Hex|Hno];
    rewrite Exists_exists in *.
  - rewrite (addToCart_present _ _ Hex). by rewrite ids_addToCart_present.
  - rewrite (addToCart_absent _ _ Hno), fmap_app. cbn.
    apply NoDup_app. split; [done|]. split; [|apply NoDup_singleton].
    intros k Hk Hk'. apply list_elem_of_singleton in Hk'. subst k.
    apply list_elem_of_fmap in Hk as (e & He & Hin). apply Hno. eauto.
Qed.

End UpdaterFacts.

(** ** The store operations *)

Section StoreFacts.
Context {P : Platform}.
Implicit Types (st : CartStore) (m : mutation) (ev : Z * mutation).

(** The persistence effect touches the storage only. *)
Lemma items_persist t st : items (persist t st) = items st.
Proof. done. Qed.

Lemma isLoading_persist t st : isLoading (persist t st) = isLoading st.
Proof. done. Qed.

Lemma isLoading_dispatch m st : isLoading (dispatch m st) = isLoading st.
Proof.
  destruct m; cbn; try done.
  unfold removeFromCart. by destruct (_ =? _)%nat.
Qed.

Lemma isLoading_step st ev : isLoading (step st ev) = isLoading st.
Proof. unfold step. by rewrite isLoading_persist, isLoading_dispatch. Qed.

Lemma run_cons ev evs st : run (ev :: evs) st = run evs (step st ev).
Proof. done. Qed.


Lemma items_removeFromCart itemId st :
  items (removeFromCart itemId st) = Updater.removeFromCart itemId (items st).
Proof. done. Qed.

Lemma items_dispatch m st :
  items (dispatch m st) =
  match m with
  | AddToCart item => Updater.addToCart item (items st)
  | RemoveFromCart itemId => Updater.removeFromCart itemId (items st)
  | UpdateQuantity itemId q => Updater.updateQuantity itemId q (items st)
  | ClearCart => []
  end.
Proof. by destruct m. Qed.


(** The single-file provider removes an entry exactly as the hook
    does. *)
Lemma Monolithic_removeFromCart itemId st :
  Monolithic.removeFromCart itemId st = removeFromCart itemId st.
Proof.
  unfold Monolithic.removeFromCart, removeFromCart.
  destruct (Updater.removeFromCart itemId (items st)) as [|a l]; done.
Qed.

Lemma Monolithic_clearCart st : Monolithic.clearCart st = clearCart st.
Proof. done. Qed.

(** Distinct ids are kept by every operation. *)
Lemma dispatch_NoDup m st :
  NoDup (id <$> items st) → NoDup (id <$> items (dispatch m st)).
Proof.
  intros Hnd. rewrite items_dispatch. destruct m.
  - by apply addToCart_NoDup.
  - rewrite ids_removeFromCart. by apply NoDup_filter_bool.
  - by rewrite ids_updateQuantity.
  - constructor.
Qed.

Lemma run_NoDup evs st :
  NoDup (id <$> items st) → NoDup (id <$> items (run evs st)).
Proof.
  revert st. induction evs as [|ev evs IH]; intros st Hnd; [done|].
  rewrite run_cons. apply IH. unfold step. rewrite items_persist.
  by apply dispatch_NoDup.
Qed.

End StoreFacts.

(** ** Doubles and integers

    Rounding to the nearest double loses nothing on a mantissa whose low
    bits are zero; so the sum and the product of integers are computed
    exactly as long as they stay within 2^53. *)

Lemma iter_pos_nat {A} (f : A -> A) (p : positive) (x : A) :
  SpecFloat.iter_pos f p x = Nat.iter (Pos.to_nat p) f x.
Proof.
  revert x. induction p as [p IH|p IH|]; intros x; cbn [SpecFloat.iter_pos].
  - rewrite !IH, Pos2Nat.inj_xI.
    replace (S (2 * Pos.to_nat p))%nat with (Pos.to_nat p + (Pos.to_nat p + 1))%nat by lia.
    rewrite !Nat.iter_add. reflexivity.
  - rewrite !IH, Pos2Nat.inj_xO.
    replace (2 * Pos.to_nat p)%nat with (Pos.to_nat p + Pos.to_nat p)%nat by lia.
    rewrite Nat.iter_add. reflexivity.
  - reflexivity.
Qed.

Lemma shiftl_nat_Z (m : positive) (n : nat) :
  Zpos (Pos.shiftl_nat m n) = Zpos m * 2 ^ Z.of_nat n.
Proof.
  induction n as [|n IH].
  - cbn. lia.
  - change (Pos.shiftl_nat m (S n)) with (xO (Pos.shiftl_nat m n)).
    rewrite Nat2Z.inj_succ, Z.pow_succ_r by lia.
    rewrite Pos2Z.inj_xO, IH. ring.
Qed.

Lemma Pos_iter_xO (m d : positive) :
  Pos.iter xO m d = Pos.shiftl_nat m (Pos.to_nat d).
Proof.
  rewrite Pos2Nat.inj_iter. generalize (Pos.to_nat d) as n.
  induction n as [|n IH]; [reflexivity|]. cbn. now rewrite IH.
Qed.

Lemma shr_shiftl (m : positive) (n : nat) :
  Nat.iter n shr_1 (Build_shr_record (Zpos (Pos.shiftl_nat m n)) false false)
  = Build_shr_record (Zpos m) false false.
Proof.
  induction n as [|n IH]; [reflexivity|].
  rewrite Nat.iter_succ_r. exact IH.
Qed.

Lemma digits2_shiftl (m : positive) (n : nat) :
  Zpos (digits2_pos (Pos.shiftl_nat m n)) = Zpos (digits2_pos m) + Z.of_nat n.
Proof.
  induction n as [|n IH]; [cbn; lia|].
  change (Pos.shiftl_nat m (S n)) with (xO (Pos.shiftl_nat m n)).
  cbn [digits2_pos]. rewrite Pos2Z.inj_succ, IH. lia.
Qed.

Lemma digits2_bounds (p : positive) :
  2 ^ (Zpos (digits2_pos p) - 1) <= Zpos p < 2 ^ Zpos (digits2_pos p).
Proof.
  induction p as [p IH|p IH|]; cbn [digits2_pos]; [| |cbn; lia].
  all: rewrite Pos2Z.inj_succ;
    replace (Z.succ (Zpos (digits2_pos p)) - 1) with (Z.succ (Zpos (digits2_pos p) - 1)) by lia;
    rewrite !Z.pow_succ_r by lia; lia.
Qed.

(** Rounding a mantissa whose low bits are zero drops exactly those bits. *)
Lemma binary_round_aux_exact (s : bool) (m : positive) (n : nat) (E : Z) :
  Zpos (digits2_pos m) = 53 ->
  -1074 <= E + Z.of_nat n <= 971 ->
  binary_round_aux 53 1024 s (Zpos (Pos.shiftl_nat m n)) E loc_Exact
  = S754_finite s m (E + Z.of_nat n).
Proof.
  intros Hd HF.
  unfold binary_round_aux, shr_fexp.
  cbn [Zdigits2 shr_record_of_loc].
  rewrite digits2_shiftl, Hd.
  assert (HfE : fexp 53 1024 (53 + Z.of_nat n + E) - E = Z.of_nat n)
    by (unfold fexp, emin; lia).
  rewrite HfE.
  assert (Hshr : shr (Build_shr_record (Zpos (Pos.shiftl_nat m n)) false false) E (Z.of_nat n)
                 = (Build_shr_record (Zpos m) false false, E + Z.of_nat n)).
  { destruct n as [|n].
    - cbn. now rewrite Z.add_0_r.
    - change (Z.of_nat (S n)) with (Zpos (Pos.of_succ_nat n)). unfold shr.
      rewrite iter_pos_nat, SuccNat2Pos.id_succ, shr_shiftl.
      reflexivity. }
  rewrite Hshr. cbn [shr_m loc_of_shr_record round_nearest_even Zdigits2 shr_record_of_loc].
  rewrite Hd.
  assert (HfF : fexp 53 1024 (53 + (E + Z.of_nat n)) - (E + Z.of_nat n) = 0)
    by (unfold fexp, emin; lia).
  rewrite HfF. cbn [shr shr_m].
  destruct (Z.leb_spec (E + Z.of_nat n) (1024 - 53)); [reflexivity|lia].
Qed.

Lemma binary_round_exact (s : bool) (p m : positive) (E F : Z) :
  Zpos (digits2_pos m) = 53 ->
  -1074 <= F <= 971 ->
  (F <= E -> Zpos m = Zpos p * 2 ^ (E - F)) ->
  (E <= F -> Zpos p = Zpos m * 2 ^ (F - E)) ->
  binary_round 53 1024 s p E = S754_finite s m F.
Proof.
  intros Hd HF Hle Hge.
  unfold binary_round, shl_align.
  assert (Hdp : Zpos (digits2_pos p) + E = 53 + F).
  { destruct (Z.le_ge_cases F E) as [H|H].
    - specialize (Hle H).
      assert (Hm : m = Pos.shiftl_nat p (Z.to_nat (E - F))).
      { apply Pos2Z.inj. rewrite shiftl_nat_Z, Z2Nat.id by lia. exact Hle. }
      rewrite Hm, digits2_shiftl, Z2Nat.id in Hd by lia. lia.
    - specialize (Hge H).
      assert (Hp : p = Pos.shiftl_nat m (Z.to_nat (F - E))).
      { apply Pos2Z.inj. rewrite shiftl_nat_Z, Z2Nat.id by lia. exact Hge. }
      rewrite Hp, digits2_shiftl, Z2Nat.id, Hd by lia. lia. }
  assert (Hf : fexp 53 1024 (Zpos (digits2_pos p) + E) = F)
    by (rewrite Hdp; unfold fexp, emin; lia).
  rewrite Hf. clear Hf Hdp.
  destruct (F - E) as [|d|d] eqn:HFE.
  - assert (F = E) by lia. subst F.
    assert (Hm : m = p).
    { apply Pos2Z.inj. rewrite Hle by lia. rewrite Z.sub_diag. lia. }
    subst m.
    pose proof (binary_round_aux_exact s p 0 E Hd) as H. cbn in H.
    rewrite Z.add_0_r in H. apply H. lia.
  - assert (Hp : p = Pos.shiftl_nat m (Pos.to_nat d)).
    { apply Pos2Z.inj. rewrite shiftl_nat_Z, positive_nat_Z. apply Hge. lia. }
    rewrite Hp.
    replace F with (E + Z.of_nat (Pos.to_nat d)) by (rewrite positive_nat_Z; lia).
    apply binary_round_aux_exact; [exact Hd|rewrite positive_nat_Z; lia].
  - rewrite Pos_iter_xO.
    assert (Hm : m = Pos.shiftl_nat p (Pos.to_nat d)).
    { apply Pos2Z.inj. rewrite shiftl_nat_Z, positive_nat_Z.
      replace (Z.pos d) with (E - F) by lia. apply Hle. lia. }
    rewrite <- Hm.
    pose proof (binary_round_aux_exact s m 0 F Hd) as H. cbn in H.
    rewrite Z.add_0_r in H. apply H. lia.
Qed.

Lemma binary_round_scaled (s : bool) (p m : positive) (E F B : Z) :
  Zpos (digits2_pos m) = 53 ->
  -1074 <= F <= 971 ->
  0 <= E + B -> 0 <= F + B ->
  Zpos m * 2 ^ (F + B) = Zpos p * 2 ^ (E + B) ->
  binary_round 53 1024 s p E = S754_finite s m F.
Proof.
  intros Hd HF HE HB Heq. apply binary_round_exact; [exact Hd|exact HF| |].
  - intros Hle.
    replace (E + B) with ((E - F) + (F + B)) in Heq by lia.
    rewrite (Z.pow_add_r 2 (E - F) (F + B)), Z.mul_assoc in Heq by lia.
    apply Z.mul_cancel_r in Heq; [exact Heq|].
    apply Z.pow_nonzero; lia.
  - intros Hle.
    replace (F + B) with ((F - E) + (E + B)) in Heq by lia.
    rewrite (Z.pow_add_r 2 (F - E) (E + B)), Z.mul_assoc in Heq by lia.
    apply Z.mul_cancel_r in Heq; [symmetry; exact Heq|].
    apply Z.pow_nonzero; lia.
Qed.

Lemma binary_round_integer (s : bool) (p : positive) :
  Zpos p <= 2 ^ 53 ->
  exists m F,
    binary_round 53 1024 s p 0 = S754_finite s m F /\
    Zpos (digits2_pos m) = 53 /\ -52 <= F <= 1 /\
    Zpos m * 2 ^ (F + 52) = Zpos p * 2 ^ 52.
Proof.
  intros Hp. pose proof (digits2_bounds p) as [Hl Hu].
  assert (Hd : Zpos (digits2_pos p) <= 54).
  { destruct (Z.le_gt_cases (Zpos (digits2_pos p)) 54) as [H|H]; [exact H|].
    assert (2 ^ 54 <= 2 ^ (Zpos (digits2_pos p) - 1)) by (apply Z.pow_le_mono_r; lia).
    lia. }
  destruct (Z.eq_dec (Zpos (digits2_pos p)) 54) as [H54|H54].
  - rewrite H54 in Hl. assert (Heq : Zpos p = 2 ^ 53) by (change (54 - 1) with 53 in Hl; lia).
    assert (p = 9007199254740992%positive) as -> by (apply Pos2Z.inj; exact Heq).
    exists 4503599627370496%positive, 1. repeat split; try reflexivity; lia.
  - set (k := Z.to_nat (53 - Zpos (digits2_pos p))).
    exists (Pos.shiftl_nat p k), (Zpos (digits2_pos p) - 53).
    assert (Hk : Z.of_nat k = 53 - Zpos (digits2_pos p)) by (unfold k; lia).
    assert (Hdm : Zpos (digits2_pos (Pos.shiftl_nat p k)) = 53)
      by (rewrite digits2_shiftl; lia).
    assert (Hv : Zpos (Pos.shiftl_nat p k) * 2 ^ (Zpos (digits2_pos p) - 53 + 52)
                 = Zpos p * 2 ^ 52).
    { rewrite shiftl_nat_Z, Hk, <- Z.mul_assoc, <- Z.pow_add_r by lia.
      f_equal. f_equal. lia. }
    split; [|split; [exact Hdm|split; [lia|exact Hv]]].
    apply binary_round_scaled with (B := 52); [exact Hdm|lia|lia|lia|exact Hv].
Qed.

Lemma Binary64_of_Z_finite (z : Z) :
  z <> 0 -> Z.abs z <= 2 ^ 53 ->
  exists m F,
    Binary64.of_Z z = S754_finite (z <? 0) m F /\
    Zpos (digits2_pos m) = 53 /\ -52 <= F <= 1 /\
    Zpos m * 2 ^ (F + 52) = Z.abs z * 2 ^ 52.
Proof.
  intros Hz Hb. destruct z as [|p|p]; [congruence| |].
  - apply (binary_round_integer false p). exact Hb.
  - apply (binary_round_integer true p). exact Hb.
Qed.

Lemma shl_align_value (m : positive) (e ez : Z) :
  ez <= e -> Zpos (fst (shl_align m e ez)) = Zpos m * 2 ^ (e - ez).
Proof.
  intros Hle. unfold shl_align.
  destruct (ez - e) as [|d|d] eqn:Hd; cbn [fst].
  - replace (e - ez) with 0 by lia. lia.
  - lia.
  - rewrite Pos_iter_xO, shiftl_nat_Z, positive_nat_Z. f_equal. f_equal. lia.
Qed.


(** Double addition is exact on integers while operands and sum stay within 2^53. *)
Lemma Binary64_add_exact (a b : Z) :
  Z.abs a <= 2 ^ 53 -> Z.abs b <= 2 ^ 53 -> Z.abs (a + b) <= 2 ^ 53 ->
  Binary64.add (Binary64.of_Z a) (Binary64.of_Z b) = Binary64.of_Z (a + b).
Proof.
  intros Ha Hb Hab.
  destruct (Z.eq_dec a 0) as [->|Hna].
  { rewrite Z.add_0_l. destruct (Z.eq_dec b 0) as [->|Hnb]; [reflexivity|].
    destruct (Binary64_of_Z_finite b Hnb Hb) as (m & F & -> & _). reflexivity. }
  destruct (Z.eq_dec b 0) as [->|Hnb].
  { rewrite Z.add_0_r.
    destruct (Binary64_of_Z_finite a Hna Ha) as (m & F & -> & _). reflexivity. }
  destruct (Binary64_of_Z_finite a Hna Ha) as (ma & ea & -> & Hda & Hea & Hva).
  destruct (Binary64_of_Z_finite b Hnb Hb) as (mb & eb & -> & Hdb & Heb & Hvb).
  unfold Binary64.add, SFadd.
  set (ez := Z.min ea eb).
  set (S := cond_Zopp (a <? 0) (Zpos (fst (shl_align ma ea ez)))
            + cond_Zopp (b <? 0) (Zpos (fst (shl_align mb eb ez)))).
  assert (HS : S * 2 ^ (ez + 52) = (a + b) * 2 ^ 52).
  { unfold S. rewrite !shl_align_value by (unfold ez; lia).
    assert (Hxa : Zpos ma * 2 ^ (ea - ez) * 2 ^ (ez + 52) = Z.abs a * 2 ^ 52).
    { rewrite <- Z.mul_assoc, <- Z.pow_add_r by (unfold ez; lia).
      replace (ea - ez + (ez + 52)) with (ea + 52) by lia. exact Hva. }
    assert (Hxb : Zpos mb * 2 ^ (eb - ez) * 2 ^ (ez + 52) = Z.abs b * 2 ^ 52).
    { rewrite <- Z.mul_assoc, <- Z.pow_add_r by (unfold ez; lia).
      replace (eb - ez + (ez + 52)) with (eb + 52) by lia. exact Hvb. }
    unfold cond_Zopp.
    destruct (Z.ltb_spec a 0), (Z.ltb_spec b 0); nia. }
  assert (Hpow : 0 < 2 ^ (ez + 52)) by (apply Z.pow_pos_nonneg; unfold ez; lia).
  clearbody S.
  destruct (Z.eq_dec (a + b) 0) as [H0|Hn0].
  { rewrite H0 in *. assert (S = 0) as -> by nia. reflexivity. }
  destruct (Binary64_of_Z_finite (a + b) Hn0 Hab) as (m & F & Hof & Hd & HF & Hv).
  rewrite Hof.
  assert (Hsign : (S <? 0) = (a + b <? 0))
    by (destruct (Z.ltb_spec S 0), (Z.ltb_spec (a + b) 0); nia).
  assert (Habs : Z.abs S * 2 ^ (ez + 52) = Z.abs (a + b) * 2 ^ 52) by nia.
  rewrite <- Hsign.
  destruct S as [|ps|ps]; [nia| |].
  - cbn [binary_normalize]. change (Z.pos ps <? 0) with false.
    apply binary_round_scaled with (B := 52); [exact Hd|lia|unfold ez; lia|lia|].
    rewrite Hv. symmetry. exact Habs.
  - cbn [binary_normalize]. change (Z.neg ps <? 0) with true.
    apply binary_round_scaled with (B := 52); [exact Hd|lia|unfold ez; lia|lia|].
    rewrite Hv. symmetry. exact Habs.
Qed.


(** Double multiplication is exact on non-negative integers while the product stays within 2^53. *)
Lemma Binary64_mul_exact (a b : Z) :
  0 <= a <= 2 ^ 53 -> 0 <= b <= 2 ^ 53 -> a * b <= 2 ^ 53 ->
  Binary64.mul (Binary64.of_Z a) (Binary64.of_Z b) = Binary64.of_Z (a * b).
Proof.
  intros Ha Hb Hab.
  destruct (Z.eq_dec a 0) as [->|Hna].
  { rewrite Z.mul_0_l. destruct (Z.eq_dec b 0) as [->|Hnb]; [reflexivity|].
    destruct (Binary64_of_Z_finite b Hnb) as (m & F & -> & _); [lia|].
    destruct (Z.ltb_spec b 0); [lia|reflexivity]. }
  destruct (Z.eq_dec b 0) as [->|Hnb].
  { rewrite Z.mul_0_r.
    destruct (Binary64_of_Z_finite a Hna) as (m & F & -> & _); [lia|].
    destruct (Z.ltb_spec a 0); [lia|reflexivity]. }
  assert (Ha53 : Z.abs a <= 2 ^ 53) by lia.
  assert (Hb53 : Z.abs b <= 2 ^ 53) by lia.
  assert (Hab53 : Z.abs (a * b) <= 2 ^ 53) by nia.
  assert (Hnab : a * b <> 0) by nia.
  destruct (Binary64_of_Z_finite a Hna Ha53) as (ma & ea & -> & Hda & Hea & Hva).
  destruct (Binary64_of_Z_finite b Hnb Hb53) as (mb & eb & -> & Hdb & Heb & Hvb).
  destruct (Binary64_of_Z_finite (a * b) Hnab Hab53) as (m & F & -> & Hd & HF & Hv).
  destruct (Z.ltb_spec a 0); [lia|]. destruct (Z.ltb_spec b 0); [lia|].
  destruct (Z.ltb_spec (a * b) 0); [nia|].
  rewrite !Z.abs_eq in * by nia.
  unfold Binary64.mul, SFmul. cbn [xorb].
  pose proof (digits2_bounds ma) as [Hla _]. rewrite Hda in Hla.
  pose proof (digits2_bounds mb) as [Hlb _]. rewrite Hdb in Hlb.
  pose proof (digits2_bounds m) as [_ Hum]. rewrite Hd in Hum.
  change (53 - 1) with 52 in *.
  assert (Hprod : Zpos (ma * mb) * 2 ^ (ea + eb + 104) = Zpos m * 2 ^ (F + 104)).
  { rewrite Pos2Z.inj_mul.
    replace (ea + eb + 104) with ((ea + 52) + (eb + 52)) by lia.
    replace (F + 104) with ((F + 52) + 52) by lia.
    rewrite (Z.pow_add_r 2 (ea + 52) (eb + 52)) by lia.
    rewrite (Z.pow_add_r 2 (F + 52) 52) by lia.
    transitivity ((Zpos ma * 2 ^ (ea + 52)) * (Zpos mb * 2 ^ (eb + 52))); [ring|].
    rewrite Hva, Hvb. transitivity ((a * b * 2 ^ 52) * 2 ^ 52); [ring|].
    rewrite <- Hv. ring. }
  assert (Hn : ea + eb <= F).
  { destruct (Z.le_gt_cases (ea + eb) F) as [Hle|Hgt]; [exact Hle|exfalso].
    replace (ea + eb + 104) with ((ea + eb - F) + (F + 104)) in Hprod by lia.
    rewrite (Z.pow_add_r 2 (ea + eb - F) (F + 104)), Z.mul_assoc in Hprod by lia.
    apply Z.mul_cancel_r in Hprod; [|apply Z.pow_nonzero; lia].
    assert (0 < 2 ^ (ea + eb - F)) by (apply Z.pow_pos_nonneg; lia).
    rewrite Pos2Z.inj_mul in Hprod.
    assert (2 ^ 52 * 2 ^ 52 <= Zpos ma * Zpos mb) by nia.
    assert (2 ^ 53 < 2 ^ 52 * 2 ^ 52) by (vm_compute; reflexivity).
    nia. }
  assert (Hshift : (ma * mb)%positive = Pos.shiftl_nat m (Z.to_nat (F - (ea + eb)))).
  { apply Pos2Z.inj. rewrite shiftl_nat_Z, Z2Nat.id by lia.
    replace (F + 104) with ((F - (ea + eb)) + (ea + eb + 104)) in Hprod by lia.
    rewrite (Z.pow_add_r 2 (F - (ea + eb)) (ea + eb + 104)), Z.mul_assoc in Hprod by lia.
    apply Z.mul_cancel_r in Hprod; [exact Hprod|apply Z.pow_nonzero; lia]. }
  rewrite Hshift.
  replace F with ((ea + eb) + Z.of_nat (Z.to_nat (F - (ea + eb)))) at 2 by lia.
  apply binary_round_aux_exact; [exact Hd|lia].
Qed.

(** ** The integer model and the doubles

    On integers of magnitude at most 2^53 the updaters and the JSON text
    of the doubles are those of the integer model. *)

Lemma find_embed (itemId : string) (l : list CartItem) :
  List.find (fun i => bool_decide (Binary64.id i = itemId)) (embed <$> l)
  = embed <$> List.find (fun i => bool_decide (id i = itemId)) l.
Proof.
  induction l as [|a l IH]; [done|]. cbn.
  change (Binary64.id (embed a)) with (id a).
  by destruct (bool_decide (id a = itemId)).
Qed.

Lemma map_embed (f : CartItem → CartItem)
  (g : Binary64.CartItem → Binary64.CartItem) (l : list CartItem) :
  (∀ e, e ∈ l → g (embed e) = embed (f e)) →
  List.map g (embed <$> l) = embed <$> List.map f l.
Proof.
  induction l as [|a l IH]; intros Hfg; [done|]. cbn. f_equal.
  - apply Hfg. left.
  - apply IH. intros e He. apply Hfg. by right.
Qed.

(** Where the sums are exact, adding on doubles is adding on integers. *)
Lemma addToCart_refines (item : CartItem) (l : list CartItem) :
  (∀ e, e ∈ l → id e = id item →
        exact_integer (quantity e) ∧ exact_integer (quantity item)
        ∧ exact_integer (quantity e + quantity item)) →
  Binary64.addToCart (embed item) (embed <$> l)
  = embed <$> Updater.addToCart item l.
Proof.
  intros Hexact. unfold Binary64.addToCart, Updater.addToCart.
  change (Binary64.id (embed item)) with (id item).
  rewrite find_embed.
  destruct (List.find _ l) as [existing|]; cbn [fmap option_fmap option_map].
  - apply map_embed. intros e He.
    change (Binary64.id (embed e)) with (id e).
    destruct (bool_decide (id e = id item)) eqn:Hid; [|done].
    apply bool_decide_eq_true in Hid.
    destruct (Hexact e He Hid) as (Hq & Hq' & Hsum).
    unfold Binary64.with_quantity, embed. cbn. f_equal.
    by apply Binary64_add_exact.
  - by rewrite fmap_app.
Qed.

Lemma updateQuantity_refines (itemId : string) (q : Z) (l : list CartItem) :
  Binary64.updateQuantity itemId (Binary64.of_Z q) (embed <$> l)
  = embed <$> Updater.updateQuantity itemId q l.
Proof.
  unfold Binary64.updateQuantity, Updater.updateQuantity.
  apply map_embed. intros e _.
  change (Binary64.id (embed e)) with (id e).
  by destruct (bool_decide (id e = itemId)).
Qed.

Lemma removeFromCart_refines (itemId : string) (l : list CartItem) :
  Binary64.removeFromCart itemId (embed <$> l)
  = embed <$> Updater.removeFromCart itemId l.
Proof.
  unfold Binary64.removeFromCart, Updater.removeFromCart.
  induction l as [|a l IH]; [done|]. cbn.
  change (Binary64.id (embed a)) with (id a).
  destruct (bool_decide (id a = itemId)); cbn; by rewrite IH.
Qed.

Section Refinement.
Context {P : Platform}.



End Refinement.





(** ** C1: merge-on-add *)

Lemma Binary64_find_by_id_Some (prevItems : list Binary64.CartItem)
  (itemId : string) :
  (∃ e, e ∈ prevItems ∧ Binary64.id e = itemId) →
  ∃ existingItem,
    List.find (fun i => bool_decide (Binary64.id i = itemId)) prevItems
    = Some existingItem.
Proof.
  intros (e & He & Hid).
  destruct (List.find _ prevItems) as [x|] eqn:Hfind; [by exists x|].
  exfalso. apply list_elem_of_In in He.
  pose proof (find_none _ _ Hfind e He) as Hno. cbn in Hno.
  by rewrite bool_decide_eq_true_2 in Hno.
Qed.

Lemma Binary64_find_by_id_None (prevItems : list Binary64.CartItem)
  (itemId : string) :
  (¬ ∃ e, e ∈ prevItems ∧ Binary64.id e = itemId) →
  List.find (fun i => bool_decide (Binary64.id i = itemId)) prevItems = None.
Proof.
  intros Hno. destruct (List.find _ prevItems) as [x|] eqn:Hfind; [|done].
  exfalso. apply find_some in Hfind as [Hin Hid]. apply Hno. exists x.
  split; [by apply list_elem_of_In|]. by apply bool_decide_eq_true in Hid.
Qed.

(** C1, as the claim states it, fails where the sum of the two
    quantities is not a double.  The cart holds product A with quantity
    1; product A is added with quantity 2^53.  The entry is left with
    quantity 2^53: the quantity of the added item, not 1 more. *)
Lemma addToCart_exact_sum_counterexample :
  let existing := productA64 (Binary64.of_Z 1) in
  let item := productA64 (Binary64.of_Z (2 ^ 53)) in
  Binary64.integer_value (Binary64.quantity existing) = Some 1
  ∧ Binary64.integer_value (Binary64.quantity item) = Some (2 ^ 53)
  ∧ Binary64.addToCart item [existing] = [productA64 (Binary64.of_Z (2 ^ 53))]
  ∧ (∀ e, e ∈ Binary64.addToCart item [existing] →
          Binary64.integer_value (Binary64.quantity e) = Some (2 ^ 53)
          ∧ Binary64.integer_value (Binary64.quantity e) ≠ Some (1 + 2 ^ 53)).
Proof.
  cbv zeta. split; [vm_compute; reflexivity|].
  split; [vm_compute; reflexivity|].
  split; [vm_compute; reflexivity|].
  intros e He.
  assert (e = productA64 (Binary64.of_Z (2 ^ 53))) as ->.
  { change (Binary64.addToCart (productA64 (Binary64.of_Z (2 ^ 53)))
              [productA64 (Binary64.of_Z 1)])
      with [productA64 (Binary64.of_Z (2 ^ 53))] in He.
    by apply list_elem_of_singleton in He. }
  split; [vm_compute; reflexivity|]. vm_compute. discriminate.
Qed.

(** C1, amended.  [addToCart] is a total function of the collection.
    When some entry has the id of the added item, the collection keeps
    its length and, position by position, an entry with that id becomes
    the same entry with, as its quantity, the double sum of its quantity
    and the quantity of the added item (name, price and image as they
    were; nothing else of the added item is used) while any other entry
    stays as it is.  When no entry has that id, the item is appended at
    the end.  The double sum of two integers is their sum whenever the
    two and their sum have magnitude at most 2^53. *)
Theorem addToCart_merges_with_double_sum
  (prevItems : list Binary64.CartItem) (item : Binary64.CartItem) :
  ((∃ e, e ∈ prevItems ∧ Binary64.id e = Binary64.id item) →
     length (Binary64.addToCart item prevItems) = length prevItems ∧
     ∀ (k : nat) (e : Binary64.CartItem), prevItems !! k = Some e →
       Binary64.addToCart item prevItems !! k =
       Some (if decide (Binary64.id e = Binary64.id item)
             then {| Binary64.id := Binary64.id e;
                     Binary64.name := Binary64.name e;
                     Binary64.price := Binary64.price e;
                     Binary64.quantity :=
                       Binary64.add (Binary64.quantity e)
                         (Binary64.quantity item);
                     Binary64.imageUrl := Binary64.imageUrl e |}
             else e)) ∧
  ((¬ ∃ e, e ∈ prevItems ∧ Binary64.id e = Binary64.id item) →
     Binary64.addToCart item prevItems = prevItems ++ [item]) ∧
  (∀ q q' : Z,
     exact_integer q → exact_integer q' → exact_integer (q + q') →
     Binary64.add (Binary64.of_Z q) (Binary64.of_Z q')
     = Binary64.of_Z (q + q')).
Proof.
  split; [|split].
  - intros Hex. unfold Binary64.addToCart.
    destruct (Binary64_find_by_id_Some _ _ Hex) as [x ->]. split.
    + apply length_map.
    + intros k e Hk.
      change (List.map ?f ?l) with (f <$> l).
      rewrite list_lookup_fmap, Hk. cbn. f_equal.
      destruct (decide (Binary64.id e = Binary64.id item)) as [Heq|Hne].
      * by rewrite bool_decide_eq_true_2.
      * by rewrite bool_decide_eq_false_2.
  - intros Hno. unfold Binary64.addToCart.
    by rewrite (Binary64_find_by_id_None _ _ Hno).
  - intros q q' Hq Hq' Hsum. by apply Binary64_add_exact.
Qed.

Lemma addToCart_merges_with_double_sum_witness :
  Binary64.addToCart (productA64 (Binary64.of_Z 2))
    [productA64 (Binary64.of_Z 1)] !! 0%nat
  = Some (productA64 (Binary64.add (Binary64.of_Z 1) (Binary64.of_Z 2)))
  ∧ Binary64.add (Binary64.of_Z 1) (Binary64.of_Z 2) = Binary64.of_Z (1 + 2).
Proof.
  pose proof (addToCart_merges_with_double_sum
                [productA64 (Binary64.of_Z 1)] (productA64 (Binary64.of_Z 2)))
    as (Hpresent & _ & Hexact).
  split.
  - assert (∃ e, e ∈ [productA64 (Binary64.of_Z 1)]
                 ∧ Binary64.id e = Binary64.id (productA64 (Binary64.of_Z 2)))
      as Hex by (exists (productA64 (Binary64.of_Z 1)); split; [left | reflexivity]).
    destruct (Hpresent Hex) as [_ Hk].
    exact (Hk 0%nat (productA64 (Binary64.of_Z 1)) eq_refl).
  - apply Hexact; vm_compute; discriminate.
Defined.

(** ** C6: the quantity of a line item *)

Lemma Forall_quantity_map (f : CartItem → CartItem) (l : list CartItem) :
  (∀ e, 1 ≤ quantity e → 1 ≤ quantity (f e)) →
  Forall (fun e => 1 ≤ quantity e) l →
  Forall (fun e => 1 ≤ quantity e) (List.map f l).
Proof.
  intros Hf. induction 1 as [|e l He _ IH]; cbn; constructor; auto.
Qed.

(** C6, as the claim states it, fails: [updateQuantity] with zero keeps the
    line item, with quantity zero. *)
Lemma quantity_floor_counterexample :
  let st := readyStore [productA 1] ∅ in
  Forall (fun e => 1 ≤ quantity e) (items st)
  ∧ items (dispatch (UpdateQuantity "1" 0) st) = [productA 0]
  ∧ ¬ Forall (fun e => 1 ≤ quantity e)
        (items (dispatch (UpdateQuantity "1" 0) st)).
Proof.
  split; [|split].
  - constructor; [change (1 ≤ 1); lia | constructor].
  - reflexivity.
  - intros Hall. apply Forall_cons in Hall as [Hq _].
    change (1 ≤ 0) in Hq. lia.
Qed.

(** C6, amended.  [updateQuantity] validates nothing: the collection keeps
    its length and every entry with the given id gets the given number as
    its quantity, whatever its sign, the other entries staying as they
    are.  A mutation that is handed a quantity of at least one keeps every
    quantity at least one. *)
Theorem quantity_kept_positive_by_positive_input (st : CartStore) :
  (∀ (itemId : string) (q : Z),
     length (items (updateQuantity itemId q st)) = length (items st) ∧
     ∀ (k : nat) (e : CartItem), items st !! k = Some e →
       items (updateQuantity itemId q st) !! k =
       Some (if decide (id e = itemId)
             then {| id := id e; name := name e; price := price e;
                     quantity := q; imageUrl := imageUrl e |}
             else e)) ∧
  (∀ m : mutation,
     positive_input m →
     Forall (fun e => 1 ≤ quantity e) (items st) →
     Forall (fun e => 1 ≤ quantity e) (items (dispatch m st))).
Proof.
  split.
  - intros itemId q. cbn. unfold Updater.updateQuantity. split.
    + apply length_map.
    + intros k e Hk.
      change (List.map ?f ?l) with (f <$> l).
      rewrite list_lookup_fmap, Hk. cbn. f_equal.
      destruct (decide (id e = itemId)).
      * by rewrite bool_decide_eq_true_2.
      * by rewrite bool_decide_eq_false_2.
  - intros m Hm Hall. rewrite items_dispatch. destruct m as [item|itemId|itemId q|].
    + cbn in Hm. unfold Updater.addToCart.
      destruct (List.find _ _).
      * apply Forall_quantity_map; [|done].
        intros e He. destruct (bool_decide _); [cbn; lia | done].
      * apply Forall_app. split; [done|]. by constructor.
    + unfold Updater.removeFromCart.
      apply Forall_forall. intros e He.
      apply list_elem_of_In, filter_In in He as [He _].
      rewrite Forall_forall in Hall. by apply Hall, list_elem_of_In.
    + cbn in Hm. apply Forall_quantity_map; [|done].
      intros e He. by destruct (bool_decide _).
    + constructor.
Qed.

Lemma quantity_kept_positive_by_positive_input_witness :
  Forall (fun e => 1 ≤ quantity e)
    (items (dispatch (UpdateQuantity "1" 5)
              (readyStore [productA 1; productB 2] ∅))).
Proof.
  apply (proj2 (quantity_kept_positive_by_positive_input
                  (readyStore [productA 1; productB 2] ∅))
               (UpdateQuantity "1" 5)).
  - change (1 ≤ 5). lia.
  - constructor; [change (1 ≤ 1); lia|].
    constructor; [change (1 ≤ 2); lia|]. constructor.
Defined.

(** ** C8: ids are unique *)

Section UniqueIds.
Context {P : Platform}.

(** C8. Whatever sequence of [addToCart], [removeFromCart],
    [updateQuantity] and [clearCart] is applied to the empty cart, no
    two line items of the resulting collection have the same id. *)
Theorem ids_unique_from_empty_cart (st : CartStore)
  (evs : list (Z * mutation)) :
  items st = [] → NoDup (id <$> items (run evs st)).
Proof.
  intros Hempty. apply run_NoDup. rewrite Hempty. constructor.
Qed.

End UniqueIds.

Lemma ids_unique_from_empty_cart_witness :
  NoDup (id <$> items
           (run (P := Reference.platform)
              [(1000, AddToCart (productA 1)); (2000, AddToCart (productB 1));
               (3000, AddToCart (productA 2)); (4000, UpdateQuantity "2" 7);
               (5000, RemoveFromCart "1")]
              (readyStore [] ∅))).
Proof.
  apply (ids_unique_from_empty_cart (P := Reference.platform)). reflexivity.
Defined.

(** ** The persisted slot *)

Lemma keys_distinct : CART_STORAGE_KEY ≠ CART_TIMESTAMP_KEY.
Proof. discriminate. Qed.

Ltac storage_simpl :=
  unfold slot_absent, getItem, setItem, removeItem in *; cbn in *;
  pose proof keys_distinct; simplify_map_eq; try done.

Lemma slot_absent_removeSnapshot (st : CartStore) :
  slot_absent (localStorage (removeSnapshot st)).
Proof. split; storage_simpl. Qed.

Lemma removeSnapshot_other_keys (st : CartStore) (k : string) :
  k ≠ CART_STORAGE_KEY → k ≠ CART_TIMESTAMP_KEY →
  getItem k (localStorage (removeSnapshot st)) = getItem k (localStorage st).
Proof. intros. storage_simpl. Qed.

Section SlotFacts.
Context {P : Platform}.
Implicit Types (st : CartStore) (ls : Storage).

(** With nothing to show, the effect writes nothing. *)
Lemma persistEffect_empty t b ls : persistEffect t [] b ls = ls.
Proof. unfold persistEffect. by rewrite andb_false_r. Qed.

Lemma persistEffect_loading t l ls : persistEffect t l true ls = ls.
Proof. done. Qed.

Lemma persistEffect_ready t l ls :
  l ≠ [] →
  persistEffect t l false ls =
  setItem CART_TIMESTAMP_KEY (Date_toISOString t)
    (setItem CART_STORAGE_KEY (JSON_stringify l) ls).
Proof. by destruct l. Qed.

Lemma persist_empty t st : items st = [] → persist t st = st.
Proof.
  destruct st as [l b ls]. intros Hl. cbn in Hl. subst l.
  unfold persist, onStorage. cbn [items isLoading localStorage].
  by rewrite persistEffect_empty.
Qed.

Lemma persist_ready_lookup t st :
  isLoading st = false → items st ≠ [] →
  getItem CART_STORAGE_KEY (localStorage (persist t st))
    = Some (JSON_stringify (items st))
  ∧ getItem CART_TIMESTAMP_KEY (localStorage (persist t st))
    = Some (Date_toISOString t).
Proof.
  intros Hready Hne. unfold persist, onStorage.
  cbn [items isLoading localStorage].
  rewrite Hready, (persistEffect_ready _ _ _ Hne). split; storage_simpl.
Qed.

Lemma persist_other_keys t st (k : string) :
  k ≠ CART_STORAGE_KEY → k ≠ CART_TIMESTAMP_KEY →
  getItem k (localStorage (persist t st)) = getItem k (localStorage st).
Proof.
  intros. unfold persist, persistEffect. cbn.
  destruct (_ && _); storage_simpl.
Qed.

Lemma removeFromCart_to_empty itemId st :
  Updater.removeFromCart itemId (items st) = [] →
  removeFromCart itemId st = setItems (fun _ => []) (removeSnapshot st).
Proof. unfold removeFromCart. by intros ->. Qed.

Lemma removeFromCart_to_nonempty itemId st :
  Updater.removeFromCart itemId (items st) ≠ [] →
  removeFromCart itemId st =
  setItems (fun _ => Updater.removeFromCart itemId (items st)) st.
Proof.
  unfold removeFromCart.
  by destruct (Updater.removeFromCart itemId (items st)).
Qed.

Lemma removeFromCart_other_keys itemId st (k : string) :
  k ≠ CART_STORAGE_KEY → k ≠ CART_TIMESTAMP_KEY →
  getItem k (localStorage (removeFromCart itemId st))
  = getItem k (localStorage st).
Proof.
  intros. unfold removeFromCart.
  destruct (_ =? _)%nat; [|done]. storage_simpl.
Qed.

(** What a removal that leaves nothing does to the store, the effect of
    the following render included. *)
Lemma step_removeFromCart_to_empty t itemId st :
  Updater.removeFromCart itemId (items st) = [] →
  items (step st (t, RemoveFromCart itemId)) = []
  ∧ slot_absent (localStorage (step st (t, RemoveFromCart itemId))).
Proof.
  intros Hempty. unfold step. cbn [fst snd dispatch].
  rewrite (removeFromCart_to_empty _ _ Hempty).
  rewrite persist_empty by done. split; [done|].
  apply slot_absent_removeSnapshot.
Qed.

(** The effect after a mutation: what it writes for a non-empty result. *)
Lemma step_lookup (st : CartStore) (t : Z) (m : mutation) :
  isLoading st = false → items (step st (t, m)) ≠ [] →
  getItem CART_STORAGE_KEY (localStorage (step st (t, m)))
  = Some (JSON_stringify (items (step st (t, m))))
  ∧ getItem CART_TIMESTAMP_KEY (localStorage (step st (t, m)))
    = Some (Date_toISOString t).
Proof.
  intros Hready Hne. unfold step in *. cbn [fst snd] in *.
  rewrite items_persist in *.
  apply persist_ready_lookup; [by rewrite isLoading_dispatch | done].
Qed.

Lemma items_step_removeFromCart (st : CartStore) (t : Z) (itemId : string) :
  items (step st (t, RemoveFromCart itemId))
  = Updater.removeFromCart itemId (items st).
Proof. unfold step. by rewrite items_persist, items_dispatch. Qed.

End SlotFacts.

(** ** C10: removal from an empty cart *)

Section RemovalFromEmpty.
Context {P : Platform}.

(** C10. On an empty collection [removeFromCart] of any id leaves the
    collection empty and removes both keys of the slot, whatever the
    storage held: the test is on the length of the result.  That is so
    for the operation alone, for the operation of the single-file
    provider, and after the effect of the render that follows. *)
Theorem removeFromCart_on_empty_deletes_keys (st : CartStore)
  (itemId : string) (t : Z) :
  items st = [] →
  (items (removeFromCart itemId st) = []
   ∧ slot_absent (localStorage (removeFromCart itemId st)))
  ∧ (items (Monolithic.removeFromCart itemId st) = []
     ∧ slot_absent (localStorage (Monolithic.removeFromCart itemId st)))
  ∧ (items (step st (t, RemoveFromCart itemId)) = []
     ∧ slot_absent (localStorage (step st (t, RemoveFromCart itemId)))).
Proof.
  intros Hempty.
  assert (Updater.removeFromCart itemId (items st) = []) as Hnil
    by (by rewrite Hempty).
  rewrite Monolithic_removeFromCart.
  rewrite (removeFromCart_to_empty _ _ Hnil).
  repeat split; try apply slot_absent_removeSnapshot.
  - by apply step_removeFromCart_to_empty.
  - by apply step_removeFromCart_to_empty.
  - by apply step_removeFromCart_to_empty.
Qed.

End RemovalFromEmpty.

Lemma removeFromCart_on_empty_deletes_keys_witness :
  items (step (P := Reference.platform) (readyStore [] staleStorage)
           (1730600000000, RemoveFromCart "1")) = []
  ∧ slot_absent
      (localStorage (step (P := Reference.platform)
                       (readyStore [] staleStorage)
                       (1730600000000, RemoveFromCart "1"))).
Proof.
  apply (removeFromCart_on_empty_deletes_keys (P := Reference.platform)
           (readyStore [] staleStorage) "1" 1730600000000).
  reflexivity.
Defined.

(** ** C5: removing the last line item, and [clearCart] *)

Section EmptyingTheCart.
Context {P : Platform}.

(** C5. When every entry of the collection has the given id (a single
    line item for one), [removeFromCart] of that id leaves the collection
    empty and neither key in the storage once the effect of the next
    render has run; [clearCart] does so for every collection.  No
    snapshot of the empty collection is written in its place. *)
Theorem emptying_deletes_both_keys (st : CartStore) (itemId : string)
  (t : Z) :
  (Forall (fun e => id e = itemId) (items st) →
     items (step st (t, RemoveFromCart itemId)) = []
     ∧ slot_absent (localStorage (step st (t, RemoveFromCart itemId))))
  ∧ (items (step st (t, ClearCart)) = []
     ∧ slot_absent (localStorage (step st (t, ClearCart)))).
Proof.
  split.
  - intros Hall. apply step_removeFromCart_to_empty.
    by apply removeFromCart_all.
  - unfold step. cbn [fst snd dispatch].
    rewrite persist_empty by done. split; [done|].
    apply slot_absent_removeSnapshot.
Qed.

End EmptyingTheCart.

Lemma emptying_deletes_both_keys_witness :
  items (step (P := Reference.platform)
           (readyStore [productA 1] storageWithProductA)
           (1730600000000, RemoveFromCart "1")) = []
  ∧ slot_absent
      (localStorage (step (P := Reference.platform)
                       (readyStore [productA 1] storageWithProductA)
                       (1730600000000, RemoveFromCart "1"))).
Proof.
  apply (proj1 (emptying_deletes_both_keys (P := Reference.platform)
                  (readyStore [productA 1] storageWithProductA) "1"
                  1730600000000)).
  constructor; [reflexivity | constructor].
Defined.

(** ** C4: removing an id that is not in the cart *)

(** C4, as the claim states it, fails on the timestamp: a cart holding
    product A, written at one time; the id "2" is removed a little later.
    The collection and the stored item list stay, the stored timestamp
    does not. *)
Lemma removing_absent_id_counterexample :
  let st := readyStore [productA 1] storageWithProductA in
  let st' := step (P := Reference.platform) st
               (1730600000000, RemoveFromCart "2") in
  (∀ e, e ∈ items st → id e ≠ "2")
  ∧ items st' = items st
  ∧ getItem CART_STORAGE_KEY (localStorage st')
    = getItem CART_STORAGE_KEY (localStorage st)
  ∧ getItem CART_TIMESTAMP_KEY (localStorage st)
    = Some "2024-11-03T02:00:00.123Z"
  ∧ getItem CART_TIMESTAMP_KEY (localStorage st')
    = Some "2024-11-03T02:13:20.000Z"
  ∧ getItem CART_TIMESTAMP_KEY (localStorage st')
    ≠ getItem CART_TIMESTAMP_KEY (localStorage st).
Proof.
  cbv zeta. split; [|split; [|split; [|split; [|split]]]].
  - intros e He. cbn in He. apply list_elem_of_singleton in He. by subst e.
  - reflexivity.
  - vm_compute. reflexivity.
  - vm_compute. reflexivity.
  - vm_compute. reflexivity.
  - vm_compute. discriminate.
Qed.

Section RemovingAbsentId.
Context {P : Platform}.

(** C4, amended.  In a store whose load has completed, [removeFromCart]
    of an id that no entry has raises nothing and leaves the collection
    as it is.  The render that follows runs the persistence effect: for a
    non-empty collection the stored item list is the serialization of
    that same collection (hence unchanged when the slot mirrored the
    collection) and the stored timestamp is the time of this effect; for
    the empty collection both keys are absent.  Other keys of the storage
    are untouched. *)
Theorem removing_absent_id_keeps_items_refreshes_timestamp
  (st : CartStore) (itemId : string) (t : Z) :
  isLoading st = false →
  (∀ e, e ∈ items st → id e ≠ itemId) →
  items (step st (t, RemoveFromCart itemId)) = items st
  ∧ (items st ≠ [] →
       getItem CART_STORAGE_KEY (localStorage (step st (t, RemoveFromCart itemId)))
         = Some (JSON_stringify (items st))
       ∧ getItem CART_TIMESTAMP_KEY (localStorage (step st (t, RemoveFromCart itemId)))
         = Some (Date_toISOString t))
  ∧ (items st = [] →
       slot_absent (localStorage (step st (t, RemoveFromCart itemId))))
  ∧ (∀ k : string, k ≠ CART_STORAGE_KEY → k ≠ CART_TIMESTAMP_KEY →
       getItem k (localStorage (step st (t, RemoveFromCart itemId)))
       = getItem k (localStorage st)).
Proof.
  intros Hready Habsent.
  pose proof (removeFromCart_absent _ _ Habsent) as Hsame.
  split; [|split; [|split]].
  - unfold step. rewrite items_persist. by rewrite items_dispatch.
  - intros Hne.
    assert (Updater.removeFromCart itemId (items st) ≠ []) as Hne'
      by (by rewrite Hsame).
    unfold step. cbn [fst snd dispatch].
    rewrite (removeFromCart_to_nonempty _ _ Hne'), Hsame.
    by apply (persist_ready_lookup t (setItems (fun _ => items st) st)).
  - intros Hempty. apply step_removeFromCart_to_empty. by rewrite Hsame.
  - intros k Hk1 Hk2. unfold step. cbn [fst snd dispatch].
    rewrite persist_other_keys by done. by apply removeFromCart_other_keys.
Qed.

End RemovingAbsentId.

Lemma removing_absent_id_keeps_items_refreshes_timestamp_witness :
  items (step (P := Reference.platform)
           (readyStore [productA 1] storageWithProductA)
           (1730600000000, RemoveFromCart "2")) = [productA 1].
Proof.
  apply (removing_absent_id_keeps_items_refreshes_timestamp
           (P := Reference.platform)
           (readyStore [productA 1] storageWithProductA) "2" 1730600000000).
  - reflexivity.
  - intros e He. cbn in He. apply list_elem_of_singleton in He. by subst e.
Defined.

(** ** C2: the initial load *)

Section InitialLoad.
Context {P : Platform}.
Implicit Types (ls : Storage) (ts : string).

(** The comparison of hours is a comparison of milliseconds. *)
Lemma expired_iff t ts saved :
  Date_parse ts = Some saved →
  expired t ts = true ↔ EXPIRY_MS < t - saved.
Proof.
  intros Hparse. unfold expired, hoursPassed. rewrite Hparse.
  change (1000 * 60 * 60) with 3600000.
  unfold Qcompare, Qdiv, Qmult, Qinv, CART_EXPIRY_HOURS, inject_Z, EXPIRY_MS.
  cbn [Qnum Qden].
  change (24 * Z.pos (1 * 3600000)) with 86400000.
  change (24 * (1000 * 60 * 60)) with 86400000.
  rewrite !Z.mul_1_r.
  destruct (Z.compare_spec (t - saved) 86400000); split; intros; try done; lia.
Qed.

Lemma expired_unparsable t ts : Date_parse ts = None → expired t ts = false.
Proof. intros Hparse. unfold expired, hoursPassed. by rewrite Hparse. Qed.

Lemma unexpired_guard t ls :
  unexpired t ls →
  truthy (getItem CART_TIMESTAMP_KEY ls)
  && expired t (default EmptyString (getItem CART_TIMESTAMP_KEY ls)) = false.
Proof.
  intros [-> | (ts & saved & -> & Hparse & Hle)]; [done|].
  change (default EmptyString (Some ts)) with ts.
  apply andb_false_iff. right.
  destruct (expired t ts) eqn:Hexp; [|done].
  apply (expired_iff _ _ _ Hparse) in Hexp. lia.
Qed.

Lemma loadCartData_expired t ls ts saved :
  getItem CART_TIMESTAMP_KEY ls = Some ts → ts ≠ EmptyString →
  Date_parse ts = Some saved → EXPIRY_MS < t - saved →
  loadCartData t (initialStore ls)
  = Returns {| items := []; isLoading := false;
               localStorage := removeItem CART_TIMESTAMP_KEY
                                 (removeItem CART_STORAGE_KEY ls) |}.
Proof.
  intros Hts Hne Hparse Hold. unfold loadCartData.
  cbn [localStorage initialStore]. rewrite Hts.
  change (default EmptyString (Some ts)) with ts. cbn [truthy].
  rewrite bool_decide_eq_false_2 by done.
  rewrite (proj2 (expired_iff _ _ _ Hparse) Hold). done.
Qed.

Lemma loadCartData_snapshot t ls s l :
  unexpired t ls →
  getItem CART_STORAGE_KEY ls = Some s → s ≠ EmptyString →
  JSON_parse s = Some l →
  loadCartData t (initialStore ls)
  = Returns {| items := l; isLoading := false; localStorage := ls |}.
Proof.
  intros Hfresh Hs Hne Hparse. unfold loadCartData.
  cbn [localStorage initialStore]. rewrite (unexpired_guard _ _ Hfresh), Hs.
  change (default EmptyString (Some s)) with s. cbn [truthy].
  rewrite bool_decide_eq_false_2 by done.
  cbn [negb]. by rewrite Hparse.
Qed.

Lemma loadCartData_nothing t ls :
  unexpired t ls →
  getItem CART_STORAGE_KEY ls = None →
  loadCartData t (initialStore ls)
  = Returns {| items := []; isLoading := false; localStorage := ls |}.
Proof.
  intros Hfresh Hs. unfold loadCartData.
  cbn [localStorage initialStore]. by rewrite (unexpired_guard _ _ Hfresh), Hs.
Qed.

(** C2. Mounting on a storage whose timestamp is there (a non-empty
    string) and marks a time more than 24 hours before the load gives the
    empty collection, and afterwards neither key is in the storage.  When
    the timestamp is missing, or marks a time at most 24 hours before the
    load, the stored item list is what [JSON.parse] makes of it, entry by
    entry unchecked, and without a stored list the collection is empty;
    in each case [isLoading] has become false. *)
Theorem initial_load_policy (ls : Storage) (loadTime persistTime : Z) :
  (∀ ts saved,
     getItem CART_TIMESTAMP_KEY ls = Some ts → ts ≠ EmptyString →
     Date_parse ts = Some saved → EXPIRY_MS < loadTime - saved →
     ∃ st, mount loadTime persistTime ls = Returns st
           ∧ items st = [] ∧ isLoading st = false
           ∧ slot_absent (localStorage st))
  ∧ (unexpired loadTime ls →
     (∀ s l,
        getItem CART_STORAGE_KEY ls = Some s → s ≠ EmptyString →
        JSON_parse s = Some l →
        ∃ st, mount loadTime persistTime ls = Returns st
              ∧ items st = l ∧ isLoading st = false)
     ∧ (getItem CART_STORAGE_KEY ls = None →
        ∃ st, mount loadTime persistTime ls = Returns st
              ∧ items st = [] ∧ isLoading st = false)).
Proof.
  split; [|intros Hfresh; split].
  - intros ts saved Hts Hne Hparse Hold. unfold mount.
    rewrite (loadCartData_expired _ _ _ _ Hts Hne Hparse Hold).
    eexists. split; [reflexivity|].
    rewrite items_persist, isLoading_persist. cbn [items isLoading].
    split; [done|]. split; [done|].
    rewrite persist_empty by done. cbn [onStorage localStorage initialStore
      items isLoading]. rewrite persistEffect_loading. split; storage_simpl.
  - intros s l Hs Hne Hparse. unfold mount.
    rewrite (loadCartData_snapshot _ _ _ _ Hfresh Hs Hne Hparse).
    eexists. split; [reflexivity|]. by rewrite items_persist, isLoading_persist.
  - intros Hs. unfold mount. rewrite (loadCartData_nothing _ _ Hfresh Hs).
    eexists. split; [reflexivity|]. by rewrite items_persist, isLoading_persist.
Qed.

End InitialLoad.

Lemma initial_load_policy_witness :
  (∃ st, mount (P := Reference.platform)
           (1730599200123 + 86400001) (1730599200123 + 86400002)
           storageWithProductA = Returns st
         ∧ items st = [] ∧ isLoading st = false
         ∧ slot_absent (localStorage st))
  ∧ (∃ st, mount (P := Reference.platform)
             (1730599200123 + 86400000) (1730599200123 + 86400001)
             storageWithProductA = Returns st
           ∧ items st = [productA 1] ∧ isLoading st = false).
Proof.
  split.
  - apply (proj1 (initial_load_policy (P := Reference.platform)
                    storageWithProductA
                    (1730599200123 + 86400001) (1730599200123 + 86400002))
                 "2024-11-03T02:00:00.123Z" 1730599200123).
    + vm_compute. reflexivity.
    + discriminate.
    + vm_compute. reflexivity.
    + vm_compute. reflexivity.
  - assert (unexpired (P := Reference.platform)
              (1730599200123 + 86400000) storageWithProductA) as Hfresh.
    { right. exists "2024-11-03T02:00:00.123Z", 1730599200123.
      split; [vm_compute; reflexivity|].
      split; [vm_compute; reflexivity|].
      vm_compute. discriminate. }
    apply (proj1 (proj2 (initial_load_policy (P := Reference.platform)
                           storageWithProductA
                           (1730599200123 + 86400000)
                           (1730599200123 + 86400001)) Hfresh)
             (Reference.stringify [productA 1]) [productA 1]).
    + vm_compute. reflexivity.
    + discriminate.
    + vm_compute. reflexivity.
Defined.

(** ** C3: the two states of the persisted slot *)

Section Lifetime.
Context {P : Platform}.

Lemma persist_ok t st :
  isLoading st = false → slot_ok (localStorage st) →
  slot_ok (localStorage (persist t st)) ∧ mirrored (persist t st).
Proof.
  intros Hready Hok. destruct (decide (items st = [])) as [Hnil|Hne].
  - rewrite persist_empty by done. split; [done|]. by split.
  - destruct (persist_ready_lookup t st Hready Hne) as [Hk Hts].
    split; [|by split]. right. by exists (items st), t.
Qed.

Lemma dispatch_slot_ok m st :
  slot_ok (localStorage st) → slot_ok (localStorage (dispatch m st)).
Proof.
  intros Hok. destruct m as [item|itemId|itemId q|]; cbn [dispatch]; try done.
  - unfold removeFromCart. destruct (_ =? _)%nat; [|done].
    left. apply slot_absent_removeSnapshot.
  - left. apply slot_absent_removeSnapshot.
Qed.

Lemma step_ok st ev :
  isLoading st = false → slot_ok (localStorage st) →
  slot_ok (localStorage (step st ev)) ∧ mirrored (step st ev).
Proof.
  intros Hready Hok. unfold step. apply persist_ok.
  - by rewrite isLoading_dispatch.
  - by apply dispatch_slot_ok.
Qed.

Lemma mount_ok loadTime persistTime ls st :
  slot_ok ls → mount loadTime persistTime ls = Returns st →
  slot_ok (localStorage st) ∧ mirrored st.
Proof.
  intros Hok. unfold mount, loadCartData.
  cbn [localStorage initialStore items isLoading].
  destruct (truthy (getItem CART_TIMESTAMP_KEY ls) && _).
  - intros [= <-]. apply persist_ok; [done|].
    left. split; storage_simpl.
  - destruct (truthy (getItem CART_STORAGE_KEY ls)).
    + destruct (JSON_parse _) as [parsed|]; [|done].
      intros [= <-]. by apply persist_ok.
    + intros [= <-]. by apply persist_ok.
Qed.

Lemma browse_ok b ev : browser_ok b → browser_ok (browse b ev).
Proof.
  intros [Hslot Hopen]. destruct ev as [loadTime persistTime|t m]; cbn [browse].
  - destruct (mount _ _ _) as [st|e] eqn:Hmount.
    + by apply (mount_ok _ _ _ _ Hslot) in Hmount.
    + by split.
  - destruct b as [ls|st]; [by split|].
    destruct Hopen as [Hready _]. by apply step_ok.
Qed.

Lemma browse_all_ok evs b :
  browser_ok b → browser_ok (fold_left browse evs b).
Proof.
  revert b. induction evs as [|ev evs IH]; intros b Hb; [done|].
  cbn [fold_left]. by apply IH, browse_ok.
Qed.

Lemma mount_result (loadTime persistTime : Z) (ls : Storage)
  (st : CartStore) :
  mount loadTime persistTime ls = Returns st →
  ∃ st1, st = persist persistTime st1 ∧ isLoading st1 = false.
Proof.
  unfold mount, loadCartData. cbn [localStorage initialStore items isLoading].
  destruct (truthy (getItem CART_TIMESTAMP_KEY ls) && _).
  - intros [= <-]. by eexists.
  - destruct (truthy (getItem CART_STORAGE_KEY ls)).
    + destruct (JSON_parse _) as [parsed|]; [|done]. intros [= <-]. by eexists.
    + intros [= <-]. by eexists.
Qed.

Lemma mount_nonempty_ok loadTime persistTime ls st :
  mount loadTime persistTime ls = Returns st → items st ≠ [] →
  browser_ok (Open st).
Proof.
  intros Hmount Hne.
  destruct (mount_result _ _ _ _ Hmount) as (st1 & -> & Hready).
  rewrite items_persist in Hne.
  destruct (persist_ready_lookup persistTime st1 Hready Hne) as [Hk Hts].
  split.
  - right. by exists (items st1), persistTime.
  - split; [by rewrite isLoading_persist|]. intros _. by rewrite items_persist.
Qed.

End Lifetime.

Lemma stringify_cons_head (i : CartItem) (l : list CartItem) :
  ∃ rest, Reference.stringify (i :: l) = String "[" (String "{" rest).
Proof. destruct l; eexists; reflexivity. Qed.

(** C3, as the claim states it, fails from a storage that holds an
    empty list.  The storage holds the text of the empty list with a
    timestamp a few minutes old.  The load completes with the empty
    collection and the effect writes nothing; [updateQuantity] keeps the
    collection empty and the effect again writes nothing.  The slot
    still holds the empty list and the old timestamp: it is not empty,
    and what it holds is not the text of a non-empty collection. *)
Lemma empty_snapshot_counterexample :
  ∃ st, mount (P := Reference.platform) 1730599300000 1730599300001
          staleStorage = Returns st
        ∧ isLoading st = false
        ∧ items st = []
        ∧ localStorage (step (P := Reference.platform) st
                          (1730599400000, UpdateQuantity "1" 5))
          = staleStorage
        ∧ getItem CART_STORAGE_KEY staleStorage = Some "[]"
        ∧ getItem CART_TIMESTAMP_KEY staleStorage
          = Some "2024-11-03T02:00:00.123Z"
        ∧ ¬ slot_ok (P := Reference.platform) staleStorage.
Proof.
  eexists. split; [vm_compute; reflexivity|].
  split; [reflexivity|]. split; [reflexivity|].
  split; [vm_compute; reflexivity|].
  split; [vm_compute; reflexivity|].
  split; [vm_compute; reflexivity|].
  intros [[Habsent _] | (l & t & Hne & Hk & _)].
  - vm_compute in Habsent. discriminate.
  - destruct l as [|i l]; [done|].
    destruct (stringify_cons_head i l) as [rest Hrest].
    change (JSON_stringify (i :: l)) with (Reference.stringify (i :: l)) in Hk.
    rewrite Hrest in Hk. vm_compute in Hk. discriminate.
Qed.

Section SlotInvariant.
Context {P : Platform}.

(** C3, amended.  Once the slot is in one of the two states (it holds
    nothing, or it holds the serialization of a non-empty collection
    with a timestamp) it is in one of the two after every further page
    load and cart operation; while the page is open and the collection
    is non-empty, the slot holds the serialization of that very
    collection.  The effect that follows a mutation with an empty result
    leaves the storage as the mutation left it, and after
    [removeFromCart] or [clearCart] with an empty result neither key is
    there.  The slot is in one of the two states in a browser that never
    ran the shop, after every mutation of a loaded store with a
    non-empty result, and after every load that yields a non-empty
    collection. *)
Theorem slot_invariant_once_established (b : browser) (evs : list event) :
  browser_ok b →
  slot_ok (storage_of (fold_left browse evs b))
  ∧ (∀ st, fold_left browse evs b = Open st →
       isLoading st = false
       ∧ (items st ≠ [] →
          getItem CART_STORAGE_KEY (localStorage st)
          = Some (JSON_stringify (items st))))
  ∧ (∀ st t m,
       items (step st (t, m)) = [] →
       localStorage (step st (t, m)) = localStorage (dispatch m st)
       ∧ (m = ClearCart ∨ (∃ itemId, m = RemoveFromCart itemId) →
          slot_absent (localStorage (step st (t, m)))))
  ∧ browser_ok freshBrowser
  ∧ (∀ st t m, isLoading st = false → items (step st (t, m)) ≠ [] →
       browser_ok (Open (step st (t, m))))
  ∧ (∀ ls loadTime persistTime st,
       mount loadTime persistTime ls = Returns st → items st ≠ [] →
       browser_ok (Open st)).
Proof.
  intros Hb.
  pose proof (browse_all_ok evs _ Hb) as [Hslot Hopen].
  split; [done|]. split; [|split; [|split; [|split]]].
  - intros st Hst. by rewrite Hst in Hopen.
  - intros st t m Hempty. unfold step in *. cbn [fst snd] in *.
    rewrite items_persist in Hempty.
    rewrite persist_empty by done. split; [done|].
    intros [-> | [itemId ->]].
    + apply slot_absent_removeSnapshot.
    + cbn [dispatch] in *. rewrite items_removeFromCart in Hempty.
      rewrite (removeFromCart_to_empty _ _ Hempty).
      apply slot_absent_removeSnapshot.
  - split; [|done]. left. split; storage_simpl.
  - intros st t m Hready Hne. unfold step in *. cbn [fst snd] in *.
    rewrite items_persist in Hne.
    assert (isLoading (dispatch m st) = false) as Hready'
      by (by rewrite isLoading_dispatch).
    destruct (persist_ready_lookup t _ Hready' Hne) as [Hk Hts].
    split.
    + right. by exists (items (dispatch m st)), t.
    + split; [by rewrite isLoading_persist|]. intros _. by rewrite items_persist.
  - intros ls loadTime persistTime st. apply mount_nonempty_ok.
Qed.

End SlotInvariant.

Lemma slot_invariant_once_established_witness :
  slot_ok (P := Reference.platform)
    (storage_of
       (fold_left (browse (P := Reference.platform))
          [Visit 1730599300000 1730599300001;
           Act 1730599400000 (AddToCart (productB 2));
           Act 1730599500000 (RemoveFromCart "1");
           Visit 1730599600000 1730599600001;
           Act 1730599700000 (UpdateQuantity "2" 0);
           Act 1730599800000 (RemoveFromCart "2")]
          (Closed storageWithProductA))).
Proof.
  refine (proj1 (slot_invariant_once_established (P := Reference.platform)
                   (Closed storageWithProductA) _ _)).
  split; [|exact I]. right.
  exists [productA 1], 1730599200123.
  split; [discriminate|]. split; vm_compute; reflexivity.
Defined.

(** ** C9: the cart outside and inside its provider *)

(** C9. With no provider around the caller, [useCart] throws its error,
    and so does a consumer before it can call anything.  With a provider
    around it, [useCart] returns the value of the nearest one, and a
    consumer's call of any of the four operations returns, with the store
    the operation produces. *)
Theorem useCart_requires_provider :
  CartContext.useCart []
    = Throws "useCart must be used within a CartProvider"
  ∧ (∀ m st,
       CartContext.call [] m st
       = Throws "useCart must be used within a CartProvider")
  ∧ (∀ context outer,
       CartContext.useCart (context :: outer) = Returns context)
  ∧ (∀ rendered outer m st,
       CartContext.call (CartContext.provide rendered :: outer) m st
       = Returns (dispatch m st)).
Proof.
  split; [done|]. split; [done|]. split; [done|].
  intros rendered outer m st. by destruct m.
Qed.

(** ** The reference platform gives back what it is given *)

Module ReferenceFacts.
Import Reference.
Local Open Scope string_scope.
Local Open Scope Z_scope.
#[local] Arguments String.append !s1 s2 / : simpl nomatch.

(** *** JSON text *)

Lemma app_assoc' (a b c : string) : (a ++ b) ++ c = a ++ (b ++ c).
Proof. induction a as [|x a IH]; cbn; [done|]. by rewrite IH. Qed.

Lemma parse_escape_char (c : ascii) (tail : string) :
  parse_string_body (escape_char c ++ tail)
  = prepend c (parse_string_body tail).
Proof.
  destruct c as [[] [] [] [] [] [] [] []]; reflexivity.
Qed.

Lemma parse_string_body_escape (s rest : string) :
  parse_string_body (escape s ++ String dquote rest) = Some (s, rest).
Proof.
  induction s as [|c s IH]; [done|].
  cbn [escape]. rewrite app_assoc', parse_escape_char, IH. done.
Qed.

Lemma quote_app (s tail : string) :
  quote s ++ tail = String dquote (escape s ++ String dquote tail).
Proof. unfold quote. cbn. by rewrite app_assoc'. Qed.

Lemma parse_string_quote (s tail : string) :
  parse_string (quote s ++ tail) = Some (s, tail).
Proof. rewrite quote_app. cbn. apply parse_string_body_escape. Qed.

(** Numerals. *)

Lemma span_digits_uint (u : Decimal.uint) (rest : string) :
  not_digit_start rest →
  span_digits (NilEmpty.string_of_uint u ++ rest)
  = (NilEmpty.string_of_uint u, rest).
Proof.
  intros Hrest. induction u; cbn; rewrite ?IHu; try done.
  destruct rest as [|c r]; [done|]. cbn in *. by rewrite Hrest.
Qed.

Lemma parse_digits_uint (u : Decimal.uint) (rest : string) :
  canonical u → not_digit_start rest →
  parse_digits (NilEmpty.string_of_uint u ++ rest) = Some (Z.of_uint u, rest).
Proof.
  intros Hu Hrest. unfold parse_digits.
  rewrite (span_digits_uint u rest Hrest), NilEmpty.usu.
  destruct u; cbn in Hu; try done. by subst.
Qed.

Lemma parse_number_unsigned (u : Decimal.uint) (rest : string) :
  canonical u → not_digit_start rest →
  parse_number (NilEmpty.string_of_uint u ++ rest) = Some (Z.of_uint u, rest).
Proof.
  intros Hu Hrest. rewrite <- (parse_digits_uint u rest Hu Hrest).
  destruct u; try done.
Qed.

Lemma parse_number_negative (u : Decimal.uint) (rest : string) :
  canonical u → not_digit_start rest →
  parse_number (String "-" (NilEmpty.string_of_uint u ++ rest))
  = Some (- Z.of_uint u, rest).
Proof.
  intros Hu Hrest. cbn. by rewrite (parse_digits_uint u rest Hu Hrest).
Qed.

Lemma nzhead_not_D0 (d u : Decimal.uint) : Decimal.nzhead d ≠ Decimal.D0 u.
Proof. induction d; cbn; try done. Qed.

Lemma canonical_to_uint (p : positive) : canonical (Pos.to_uint p).
Proof.
  pose proof (DecimalPos.Unsigned.to_of (Pos.to_uint p)) as Hnorm.
  rewrite DecimalPos.Unsigned.of_to in Hnorm. cbn in Hnorm.
  pose proof (DecimalPos.Unsigned.to_uint_nonnil p) as Hnil.
  destruct (Pos.to_uint p) as [|u| | | | | | | | |] eqn:Hp; try done.
  cbn. unfold Decimal.unorm in Hnorm. cbn [Decimal.nzhead] in Hnorm.
  destruct (Decimal.nzhead u) eqn:Hu.
  all: try by destruct (nzhead_not_D0 _ _ Hu).
  all: try discriminate Hnorm.
  by injection Hnorm.
Qed.

Lemma print_number_app (z : Z) (rest : string) :
  not_digit_start rest →
  parse_number (print_number z ++ rest) = Some (z, rest).
Proof.
  intros Hrest. unfold print_number. destruct z as [|p|p].
  - apply (parse_number_unsigned (Decimal.D0 Decimal.Nil)); done.
  - pose proof (canonical_to_uint p) as Hp.
    cbn [Z.to_int NilZero.string_of_int]. unfold NilZero.string_of_uint.
    destruct (Pos.to_uint p) eqn:Hu; try done;
      rewrite <- Hu in *; rewrite (parse_number_unsigned _ _ Hp Hrest);
      do 2 f_equal; unfold Z.of_uint;
      by rewrite DecimalPos.Unsigned.of_to.
  - pose proof (canonical_to_uint p) as Hp.
    cbn [Z.to_int NilZero.string_of_int]. unfold NilZero.string_of_uint.
    destruct (Pos.to_uint p) eqn:Hu; try done;
      rewrite <- Hu in *; cbn [String.append];
      rewrite (parse_number_negative _ _ Hp Hrest);
      do 2 f_equal; unfold Z.of_uint;
      by rewrite DecimalPos.Unsigned.of_to.
Qed.

(** Values. *)

Lemma parse_value_string (s tail : string) :
  parse_value (quote s ++ tail) = Some (JString s, tail).
Proof.
  pose proof (parse_string_quote s tail) as Hs.
  rewrite quote_app in *. unfold parse_value.
  change (Ascii.eqb dquote dquote) with true. cbv iota. by rewrite Hs.
Qed.

Lemma parse_value_number (z : Z) (tail : string) :
  not_digit_start tail →
  parse_value (print_number z ++ tail) = Some (JNumber z, tail).
Proof.
  intros Htail. pose proof (print_number_app z tail Htail) as Hz.
  unfold parse_value.
  destruct (print_number z ++ tail) as [|c r] eqn:Htext; [done|].
  assert (Ascii.eqb c dquote = false ∧ Ascii.eqb c "n" = false) as [-> ->].
  { unfold print_number in Htext. destruct z as [|p|p].
    - by injection Htext as <- _.
    - cbn [Z.to_int NilZero.string_of_int] in Htext.
      unfold NilZero.string_of_uint in Htext.
      destruct (Pos.to_uint p); by injection Htext as <- _.
    - by injection Htext as <- _. }
  by rewrite Hz.
Qed.

(** Members of an object. *)

Lemma parse_members_cons (f : nat) (k vtext more : string) (v : jvalue) :
  parse_value (vtext ++ String "," more) = Some (v, String "," more) →
  parse_members (S f) (print_member k vtext ++ String "," more)
  = match parse_members f more with
    | Some (ms, r) => Some ((k, v) :: ms, r)
    | None => None
    end.
Proof.
  intros Hv. unfold print_member. rewrite !app_assoc'.
  cbn [parse_members]. rewrite parse_string_quote.
  cbn [String.append]. by rewrite Hv.
Qed.

Lemma parse_members_last (f : nat) (k vtext rest : string) (v : jvalue) :
  parse_value (vtext ++ String "}" rest) = Some (v, String "}" rest) →
  parse_members (S f) (print_member k vtext ++ String "}" rest)
  = Some ([(k, v)], rest).
Proof.
  intros Hv. unfold print_member. rewrite !app_assoc'.
  cbn [parse_members]. rewrite parse_string_quote.
  cbn [String.append]. by rewrite Hv.
Qed.

Lemma parse_members_item (f : nat) (i : CartItem) (rest : string) :
  parse_members (S (S (S (S (S f))))) (print_members i ++ String "}" rest)
  = Some (members_of i, rest).
Proof.
  unfold print_members, members_of.
  destruct (imageUrl i) as [u|]; rewrite !app_assoc'; cbn [String.append].
  - rewrite (parse_members_cons _ _ _ _ _ (parse_value_string _ _)).
    rewrite (parse_members_cons _ _ _ _ _ (parse_value_string _ _)).
    rewrite (parse_members_cons _ _ _ _ (JNumber (price i)))
      by (by apply parse_value_number).
    rewrite (parse_members_cons _ _ _ _ (JNumber (quantity i)))
      by (by apply parse_value_number).
    by rewrite (parse_members_last _ _ _ _ _ (parse_value_string _ _)).
  - rewrite (parse_members_cons _ _ _ _ _ (parse_value_string _ _)).
    rewrite (parse_members_cons _ _ _ _ _ (parse_value_string _ _)).
    rewrite (parse_members_cons _ _ _ _ (JNumber (price i)))
      by (by apply parse_value_number).
    by rewrite (parse_members_last _ _ _ _ (JNumber (quantity i)))
      by (by apply parse_value_number).
Qed.

Lemma length_app (a b : string) :
  String.length (a ++ b) = (String.length a + String.length b)%nat.
Proof. induction a as [|c a IH]; cbn; [done|]. by rewrite IH. Qed.

Lemma print_members_head (i : CartItem) (tail : string) :
  ∃ r, print_members i ++ tail = String dquote r
       ∧ (5 ≤ String.length (String dquote r))%nat.
Proof.
  eexists. split.
  - unfold print_members, print_member. rewrite !app_assoc', quote_app.
    reflexivity.
  - cbn [String.length]. repeat (rewrite length_app; cbn [String.length]).
    lia.
Qed.

Lemma parse_object_item (i : CartItem) (rest : string) :
  parse_object (print_item i ++ rest) = Some (members_of i, rest).
Proof.
  unfold print_item. rewrite !app_assoc'. cbn [String.append].
  pose proof (parse_members_item) as Hitem.
  destruct (print_members_head i (String "}" rest)) as (r & Hr & Hlen).
  specialize Hitem with (i := i) (rest := rest). rewrite Hr in *.
  unfold parse_object. change (Ascii.eqb dquote "}") with false.
  destruct (String.length (String dquote r)) as [|[|[|[|[|f]]]]] eqn:Hf;
    try lia.
  apply Hitem.
Qed.

Lemma decode_members_of (i : CartItem) : decode_item (members_of i) = Some i.
Proof. destruct i as [a b c d [u|]]; reflexivity. Qed.

(** Elements of the array. *)

Lemma parse_elements_cons (f : nat) (i : CartItem) (more : string) :
  parse_elements (S f) (print_item i ++ String "," more)
  = match parse_elements f more with
    | Some (l, r) => Some (i :: l, r)
    | None => None
    end.
Proof.
  cbn [parse_elements]. by rewrite parse_object_item, decode_members_of.
Qed.

Lemma parse_elements_last (f : nat) (i : CartItem) (rest : string) :
  parse_elements (S f) (print_item i ++ String "]" rest) = Some ([i], rest).
Proof.
  cbn [parse_elements]. by rewrite parse_object_item, decode_members_of.
Qed.

Lemma parse_elements_items (l : list CartItem) (f : nat) (rest : string) :
  l ≠ [] → (length l ≤ f)%nat →
  parse_elements f (print_items l ++ String "]" rest) = Some (l, rest).
Proof.
  revert f. induction l as [|i l IH]; intros f Hne Hf; [done|].
  destruct f as [|f]; [cbn in Hf; lia|].
  destruct l as [|j l].
  - apply parse_elements_last.
  - change (print_items (i :: j :: l))
      with (print_item i ++ "," ++ print_items (j :: l)).
    rewrite !app_assoc'. cbn [String.append].
    rewrite parse_elements_cons, IH; [done|done|]. cbn in *. lia.
Qed.

Lemma length_print_items (l : list CartItem) (tail : string) :
  (length l ≤ String.length (print_items l ++ tail))%nat.
Proof.
  induction l as [|i l IH]; [cbn; lia|].
  destruct l as [|j l].
  - unfold print_items, print_item. rewrite !app_assoc'. cbn [String.append].
    cbn. lia.
  - change (print_items (i :: j :: l))
      with (print_item i ++ "," ++ print_items (j :: l)).
    rewrite !app_assoc'. cbn [String.append]. rewrite length_app.
    cbn [String.length length] in *. lia.
Qed.

(** The parser reads back what the printer wrote. *)
Theorem parse_stringify (l : list CartItem) : parse (stringify l) = Some l.
Proof.
  unfold stringify. destruct l as [|i l]; [done|].
  cbn [String.append].
  assert (∃ r, print_items (i :: l) ++ "]" = String "{" r) as [r Hr].
  { destruct l; eexists; cbn [print_items]; unfold print_item;
      rewrite !app_assoc'; reflexivity. }
  pose proof (parse_elements_items (i :: l) (String.length (String "{" r))
                EmptyString) as Hparse.
  pose proof (length_print_items (i :: l) "]") as Hlen.
  rewrite Hr in *. unfold parse.
  change (EmptyString ++ String "{" r) with (String "{" r).
  cbv iota. change (Ascii.eqb "{" "]") with false.
  rewrite Hparse; done.
Qed.

Lemma stringify_not_empty (l : list CartItem) : stringify l ≠ EmptyString.
Proof. done. Qed.

(** *** Timestamps *)

Ltac split_ifs :=
  repeat match goal with
         | |- context [if ?b then _ else _] => destruct b eqn:?
         end.

Lemma civil_roundtrip (days : Z) :
  match civil_from_days days with
  | (y, m, d) => days_from_civil y m d = days ∧ 1 ≤ m ≤ 12 ∧ 1 ≤ d ≤ 31
  end.
Proof.
  unfold civil_from_days, days_from_civil. cbv zeta.
  split_ifs; Z.to_euclidean_division_equations; lia.
Qed.

Lemma civil_year_range (days : Z) :
  -100000000 ≤ days ≤ 100000000 →
  -999999 ≤ (civil_from_days days).1.1 ≤ 999999.
Proof.
  intros Hdays. unfold civil_from_days. cbv zeta. cbn [fst].
  split_ifs; Z.to_euclidean_division_equations; lia.
Qed.

(** Fields of fixed width. *)

Lemma digit_spec (n : Z) :
  0 ≤ n < 10 →
  is_digit (digit n) = true ∧ Z.of_N (N_of_ascii (digit n)) - 48 = n.
Proof.
  intros Hn.
  assert (n = 0 ∨ n = 1 ∨ n = 2 ∨ n = 3 ∨ n = 4 ∨ n = 5 ∨ n = 6 ∨ n = 7
          ∨ n = 8 ∨ n = 9) as Hcases by lia.
  repeat destruct Hcases as [-> | Hcases]; try subst n; done.
Qed.

Lemma read_digits_snoc (w : nat) (acc : Z) (s : string) :
  read_digits (S w) acc s
  = match read_digits w acc s with
    | Some (v, String c r) =>
        if is_digit c then Some (v * 10 + (Z.of_N (N_of_ascii c) - 48), r)
        else None
    | _ => None
    end.
Proof.
  revert acc s. induction w as [|w IH]; intros acc s.
  - cbn. destruct s as [|c r]; [done|]. by destruct (is_digit c).
  - cbn [read_digits] in *. destruct s as [|c r]; [done|].
    destruct (is_digit c); [|done]. apply IH.
Qed.

Lemma read_digits_pad (w : nat) (n acc : Z) (rest : string) :
  0 ≤ n < 10 ^ Z.of_nat w →
  read_digits w acc (pad w n ++ rest)
  = Some (acc * 10 ^ Z.of_nat w + n, rest).
Proof.
  revert n rest. induction w as [|w IH]; intros n rest Hn.
  - cbn in *. do 2 f_equal. lia.
  - rewrite Nat2Z.inj_succ, Z.pow_succ_r in * by lia.
    rewrite read_digits_snoc. cbn [pad]. rewrite app_assoc'.
    rewrite IH by (split; [apply Z.div_pos; lia | apply Z.div_lt_upper_bound; lia]).
    cbn [String.append str].
    destruct (digit_spec (n mod 10)) as [-> ->]; [apply Z.mod_pos_bound; lia|].
    do 2 f_equal. pose proof (Z.div_mod n 10). lia.
Qed.

Lemma pad_head (w : nat) (n : Z) (rest : string) :
  0 ≤ n →
  ∃ c r, pad (S w) n ++ rest = String c r ∧ is_digit c = true.
Proof.
  revert n rest. induction w as [|w IH]; intros n rest Hn.
  - exists (digit (n mod 10)), rest. split; [done|].
    apply digit_spec, Z.mod_pos_bound. lia.
  - change (pad (S (S w)) n) with (pad (S w) (n / 10) ++ str (digit (n mod 10))).
    rewrite app_assoc'. apply IH, Z.div_pos; lia.
Qed.

Lemma read_year_unsigned (c : ascii) (r : string) :
  is_digit c = true → read_year (String c r) = read_digits 4 0 (String c r).
Proof. destruct c as [[] [] [] [] [] [] [] []]; done. Qed.

Lemma read_year_print (y : Z) (rest : string) :
  -999999 ≤ y ≤ 999999 →
  read_year (print_year y ++ rest) = Some (y, rest).
Proof.
  intros Hy. unfold print_year.
  destruct ((0 <=? y) && (y <=? 9999)) eqn:Hshort.
  - apply andb_true_iff in Hshort as [H0 H1].
    apply Z.leb_le in H0, H1.
    destruct (pad_head 3 y rest H0) as (c & r & Hpad & Hc).
    pose proof (read_digits_pad 4 y 0 rest) as Hread.
    rewrite Hpad in *. rewrite (read_year_unsigned _ _ Hc), Hread; [done|].
    change (10 ^ Z.of_nat 4) with 10000. lia.
  - assert (y < 0 ∨ 9999 < y) as Hout.
    { apply andb_false_iff in Hshort as [H0|H1];
        [apply Z.leb_gt in H0 | apply Z.leb_gt in H1]; lia. }
    pose proof (read_digits_pad 6 (Z.abs y) 0 rest) as Hread.
    change (10 ^ Z.of_nat 6) with 1000000 in Hread.
    destruct (y <? 0) eqn:Hneg; rewrite app_assoc'; cbn [String.append str];
      unfold read_year; rewrite Hread by lia.
    + apply Z.ltb_lt in Hneg.
      rewrite (proj2 (Z.eqb_neq _ _)) by lia. do 2 f_equal. lia.
    + apply Z.ltb_ge in Hneg. do 2 f_equal. lia.
Qed.

Lemma read_two (n : Z) (rest : string) :
  0 ≤ n < 100 → read_digits 2 0 (pad 2 n ++ rest) = Some (n, rest).
Proof.
  intros Hn. rewrite (read_digits_pad 2 n 0 rest); [done|].
  change (10 ^ Z.of_nat 2) with 100. lia.
Qed.

Lemma read_three (n : Z) (rest : string) :
  0 ≤ n < 1000 → read_digits 3 0 (pad 3 n ++ rest) = Some (n, rest).
Proof.
  intros Hn. rewrite (read_digits_pad 3 n 0 rest); [done|].
  change (10 ^ Z.of_nat 3) with 1000. lia.
Qed.

Theorem parse_date_toISOString (t : Z) :
  -8640000000000000 ≤ t ≤ 8640000000000000 →
  parse_date (toISOString t) = Some t.
Proof.
  intros Ht. unfold toISOString, MS_PER_DAY.
  change (24 * 60 * 60 * 1000) with 86400000.
  pose proof (civil_roundtrip (t / 86400000)) as Hcivil.
  pose proof (civil_year_range (t / 86400000)) as Hyear.
  destruct (civil_from_days (t / 86400000)) as [[y m] d] eqn:Hymd.
  destruct Hcivil as (Hdays & Hm & Hd). cbn [fst] in Hyear.
  assert (-999999 ≤ y ≤ 999999) as Hy
    by (apply Hyear; Z.to_euclidean_division_equations; lia).
  pose proof (Z.mod_pos_bound t 86400000 ltac:(lia)) as Hr.
  set (r := t mod 86400000) in *.
  unfold parse_date.
  rewrite (read_year_print y _ Hy).
  cbn [mbind option_bind String.append expect Ascii.eqb Bool.eqb].
  rewrite read_two by lia.
  cbn [mbind option_bind String.append expect Ascii.eqb Bool.eqb].
  rewrite read_two by lia.
  cbn [mbind option_bind String.append expect Ascii.eqb Bool.eqb].
  rewrite read_two by (Z.to_euclidean_division_equations; lia).
  cbn [mbind option_bind String.append expect Ascii.eqb Bool.eqb].
  rewrite read_two by (Z.to_euclidean_division_equations; lia).
  cbn [mbind option_bind String.append expect Ascii.eqb Bool.eqb].
  rewrite read_two by (Z.to_euclidean_division_equations; lia).
  cbn [mbind option_bind String.append expect Ascii.eqb Bool.eqb].
  rewrite read_three by (Z.to_euclidean_division_equations; lia).
  cbn [mbind option_bind String.append expect Ascii.eqb Bool.eqb].
  rewrite bool_decide_eq_true_2 by done.
  rewrite !(proj2 (Z.leb_le _ _)) by lia.
  rewrite !(proj2 (Z.ltb_lt _ _))
    by (subst r; Z.to_euclidean_division_equations; lia).
  rewrite bool_decide_eq_true_2 by (by rewrite Hdays).
  cbn [andb]. f_equal. rewrite Hdays. unfold MS_PER_DAY.
  change (24 * 60 * 60 * 1000) with 86400000.
  subst r. Z.to_euclidean_division_equations. lia.
Qed.

End ReferenceFacts.

(** ** C7: what is written is what is read back *)

Section RoundTrip.
Context {P : Platform}.

(** Reloading the storage that a mutation step left behind. *)
Lemma reload_after_step (st : CartStore) (t : Z) (m : mutation)
  (loadTime persistTime : Z) :
  isLoading st = false →
  items (step st (t, m)) ≠ [] →
  codec_faithful_on (items (step st (t, m))) t →
  loadTime - t ≤ EXPIRY_MS →
  ∃ st', mount loadTime persistTime (localStorage (step st (t, m)))
         = Returns st'
         ∧ items st' = items (step st (t, m))
         ∧ isLoading st' = false.
Proof.
  intros Hready Hne (Htext & Hjson & Hdate) Hwindow.
  assert (isLoading (dispatch m st) = false) as Hready'
    by (by rewrite isLoading_dispatch).
  destruct (persist_ready_lookup t (dispatch m st) Hready' Hne) as [Hk Hts].
  fold (step st (t, m)) in Hk, Hts.
  assert (unexpired loadTime (localStorage (step st (t, m)))) as Hfresh.
  { right. by exists (Date_toISOString t), t. }
  unfold mount.
  rewrite (loadCartData_snapshot _ _ _ _ Hfresh Hk Htext Hjson).
  eexists. split; [reflexivity|].
  by rewrite items_persist, isLoading_persist.
Qed.


End RoundTrip.

(** The reference platform is faithful on every collection and every
    valid time. *)
Lemma reference_platform_faithful (l : list CartItem) (t : Z) :
  valid_time t → codec_faithful_on (P := Reference.platform) l t.
Proof.
  intros Ht. split; [apply ReferenceFacts.stringify_not_empty|].
  split; [apply ReferenceFacts.parse_stringify|].
  by apply ReferenceFacts.parse_date_toISOString.
Qed.




(** ** The scenario of the specification

    Product A is added with quantity 1 and again with quantity 2: one
    entry, with quantity 3, and the slot holds its text and the time of
    the write.  It is then removed: the collection is empty and neither
    key is left. *)
Example scenario_add_add_remove :
  let st1 := run (P := Reference.platform)
               [(1730599200123, AddToCart (productA 1));
                (1730599201000, AddToCart (productA 2))]
               (readyStore [] ∅) in
  let st2 := step (P := Reference.platform) st1
               (1730599202000, RemoveFromCart "1") in
  items st1 = [productA 3]
  ∧ getItem CART_STORAGE_KEY (localStorage st1)
    = Some (Reference.stringify [productA 3])
  ∧ getItem CART_TIMESTAMP_KEY (localStorage st1)
    = Some "2024-11-03T02:00:01.000Z"
  ∧ items st2 = []
  ∧ slot_absent (localStorage st2).
Proof.
  cbv zeta. split; [reflexivity|].
  split; [vm_compute; reflexivity|].
  split; [vm_compute; reflexivity|].
  split; [reflexivity|].
  split; vm_compute; reflexivity.
Qed.

(** * Further properties of the operations *)

(** ** [removeFromCart] *)

Lemma filter_bool_sublist {A} (f : A → bool) (l : list A) :
  sublist (List.filter f l) l.
Proof.
  induction l as [|x l IH]; cbn; [constructor|].
  destruct (f x); by constructor.
Qed.

Lemma filter_bool_partition {A} (f : A → bool) (l : list A) :
  l ≡ₚ List.filter f l ++ List.filter (fun x => negb (f x)) l.
Proof.
  induction l as [|x l IH]; [done|]. cbn. destruct (f x); cbn.
  - by constructor.
  - rewrite <- Permutation_middle. by constructor.
Qed.

(** X1. What [removeFromCart] leaves is exactly the entries with another
    id, each as many times as it was there and in the order they had:
    no entry with the id stays, none with another id goes, and the
    collection is what is left together with removed entries that all
    have the id. *)
Theorem removeFromCart_keeps_exactly_other_ids (itemId : string)
  (st : CartStore) :
  (∀ e, e ∈ items (removeFromCart itemId st)
        ↔ e ∈ items st ∧ id e ≠ itemId)
  ∧ sublist (items (removeFromCart itemId st)) (items st)
  ∧ ∃ removed, Forall (fun e => id e = itemId) removed
               ∧ items st ≡ₚ items (removeFromCart itemId st) ++ removed.
Proof.
  rewrite items_removeFromCart. unfold Updater.removeFromCart.
  split; [|split].
  - intros e. rewrite !list_elem_of_In, filter_In.
    rewrite negb_true_iff, bool_decide_eq_false. done.
  - apply filter_bool_sublist.
  - exists (List.filter
              (fun item => negb (negb (bool_decide (id item = itemId))))
              (items st)).
    split; [|apply filter_bool_partition].
    apply Forall_forall. intros e He.
    apply list_elem_of_In, filter_In in He as [_ He].
    rewrite negb_involutive in He. by apply bool_decide_eq_true in He.
Qed.

Lemma removeFromCart_head_absent (itemId : string) (l : list CartItem) :
  itemId ∉ (id <$> l) → Updater.removeFromCart itemId l = l.
Proof.
  intros Hnot. apply removeFromCart_absent. intros e He Hid.
  apply Hnot. rewrite <- Hid. by apply list_elem_of_fmap_2.
Qed.

Lemma removeFromCart_position (l : list CartItem) (k : nat) (e : CartItem) :
  NoDup (id <$> l) → l !! k = Some e →
  Updater.removeFromCart (id e) l = delete k l.
Proof.
  revert k. induction l as [|a l IH]; intros k Hnd Hk; [done|].
  apply NoDup_cons in Hnd as [Ha Hnd]. destruct k as [|k].
  - injection Hk as ->. cbn. rewrite bool_decide_eq_true_2 by done. cbn.
    by apply removeFromCart_head_absent.
  - cbn in Hk. cbn.
    assert (id a ≠ id e) as Hne.
    { intros Heq. apply Ha. rewrite Heq.
      apply list_elem_of_fmap_2. by apply list_elem_of_lookup_2 in Hk. }
    rewrite bool_decide_eq_false_2 by done. cbn. f_equal. by apply IH.
Qed.

(** X2. In a collection whose ids are distinct, [removeFromCart] of the
    id of the entry at position [k] takes out that entry and no other:
    the result is the collection without position [k]. *)
Theorem removeFromCart_deletes_one_position (st : CartStore) (k : nat)
  (e : CartItem) :
  NoDup (id <$> items st) →
  items st !! k = Some e →
  items (removeFromCart (id e) st) = delete k (items st).
Proof.
  intros Hnd Hk. rewrite items_removeFromCart.
  by apply removeFromCart_position.
Qed.

Lemma removeFromCart_deletes_one_position_witness :
  items (removeFromCart "1"
           (readyStore [productB 2; productA 1; productB 5] ∅))
  = [productB 2; productB 5]
  ∧ items (removeFromCart (id (productA 1))
             (readyStore [productB 2; productA 1] ∅))
    = delete 1%nat [productB 2; productA 1].
Proof.
  split; [reflexivity|].
  apply (removeFromCart_deletes_one_position
           (readyStore [productB 2; productA 1] ∅) 1 (productA 1)).
  - cbn. apply NoDup_cons. split; [|apply NoDup_singleton].
    intros Hin. apply list_elem_of_singleton in Hin. discriminate Hin.
  - reflexivity.
Defined.

Lemma removeFromCart_twice (itemId : string) (l : list CartItem) :
  Updater.removeFromCart itemId (Updater.removeFromCart itemId l)
  = Updater.removeFromCart itemId l.
Proof.
  apply removeFromCart_absent. intros e He.
  apply list_elem_of_In, filter_In in He as [_ He].
  by rewrite negb_true_iff, bool_decide_eq_false in He.
Qed.

(** ** [addToCart] *)

Lemma find_by_id_ids (itemId : string) (l l' : list CartItem) :
  id <$> l = id <$> l' →
  (∃ e, e ∈ l ∧ id e = itemId) → ∃ e, e ∈ l' ∧ id e = itemId.
Proof.
  intros Hids (e & He & Hid).
  assert (itemId ∈ id <$> l') as Hin
    by (rewrite <- Hids, <- Hid; by apply list_elem_of_fmap_2).
  apply list_elem_of_fmap in Hin as (e' & -> & He'). by exists e'.
Qed.

Lemma id_present_dec (itemId : string) (l : list CartItem) :
  (∃ e, e ∈ l ∧ id e = itemId) ∨ ¬ (∃ e, e ∈ l ∧ id e = itemId).
Proof.
  destruct (decide (Exists (fun e => id e = itemId) l)) as [Hex|Hno];
    rewrite Exists_exists in *; [by left | by right].
Qed.

Lemma map_no_match (itemId : string) (f : CartItem → CartItem)
  (l : list CartItem) :
  (¬ ∃ e, e ∈ l ∧ id e = itemId) →
  List.map (fun i => if bool_decide (id i = itemId) then f i else i) l = l.
Proof.
  intros Hno. induction l as [|a l IH]; [done|]. cbn.
  rewrite bool_decide_eq_false_2.
  - f_equal. apply IH. intros (e & He & Hid). apply Hno. exists e.
    split; [by right | done].
  - intros Hid. apply Hno. exists a. split; [left | done].
Qed.

(** Adding to a collection that has the id adds to a collection that
    still has it. *)
Lemma addToCart_keeps_id_present (item : CartItem) (l : list CartItem) :
  ∃ e, e ∈ Updater.addToCart item l ∧ id e = id item.
Proof.
  destruct (id_present_dec (id item) l) as [Hex|Hno].
  - apply (find_by_id_ids _ l); [|done].
    by rewrite (addToCart_present _ _ Hex), ids_addToCart_present.
  - rewrite (addToCart_absent _ _ Hno). exists item.
    split; [|done]. apply elem_of_app. right. by left.
Qed.

(** In the integer model, adding twice is adding the sum. *)
Lemma addToCart_addToCart (item : CartItem) (q1 q2 : Z) (l : list CartItem) :
  Updater.addToCart (with_quantity item q2)
    (Updater.addToCart (with_quantity item q1) l)
  = Updater.addToCart (with_quantity item (q1 + q2)) l.
Proof.
  pose proof (addToCart_keeps_id_present (with_quantity item q1) l)
    as Hafter.
  change (id (with_quantity item q1)) with (id (with_quantity item q2))
    in Hafter.
  rewrite (addToCart_present _ _ Hafter).
  destruct (id_present_dec (id item) l) as [Hex|Hno].
  - rewrite (addToCart_present _ (with_quantity item q1) Hex),
      (addToCart_present _ (with_quantity item (q1 + q2)) Hex).
    rewrite List.map_map. apply List.map_ext. intros a. cbn [id with_quantity].
    destruct (bool_decide (id a = id item)) eqn:Ha; cbn [id with_quantity].
    + rewrite Ha. unfold with_quantity. cbn. f_equal. lia.
    + by rewrite Ha.
  - rewrite (addToCart_absent _ (with_quantity item q1) Hno),
      (addToCart_absent _ (with_quantity item (q1 + q2)) Hno).
    rewrite List.map_app. cbn [List.map id with_quantity].
    rewrite bool_decide_eq_true_2 by done.
    by rewrite (map_no_match _ _ _ Hno).
Qed.

(** X4. On doubles, for counts within 2^53: adding an item with
    quantity [q1] and then the same item with quantity [q2] gives the
    collection that adding it once with quantity [q1 + q2] gives, which
    is the one of the integer model. *)
Theorem addToCart_twice_adds_quantities (item : CartItem) (q1 q2 : Z)
  (l : list CartItem) :
  0 ≤ q1 → 0 ≤ q2 → q1 + q2 ≤ 2 ^ 53 →
  (∀ e, e ∈ l → id e = id item →
        0 ≤ quantity e ∧ quantity e + q1 + q2 ≤ 2 ^ 53) →
  Binary64.addToCart (embed (with_quantity item q2))
    (Binary64.addToCart (embed (with_quantity item q1)) (embed <$> l))
  = Binary64.addToCart (embed (with_quantity item (q1 + q2))) (embed <$> l)
  ∧ Binary64.addToCart (embed (with_quantity item (q1 + q2))) (embed <$> l)
    = embed <$> Updater.addToCart (with_quantity item (q1 + q2)) l.
Proof.
  intros Hq1 Hq2 Hsum Hl.
  assert (Binary64.addToCart (embed (with_quantity item (q1 + q2))) (embed <$> l)
          = embed <$> Updater.addToCart (with_quantity item (q1 + q2)) l) as Hone.
  { apply addToCart_refines. intros e He Hid.
    destruct (Hl e He Hid) as [H0 Hb]. cbn [quantity with_quantity].
    unfold exact_integer. lia. }
  split; [|done]. rewrite Hone.
  rewrite (addToCart_refines (with_quantity item q1)).
  2:{ intros e He Hid. destruct (Hl e He Hid) as [H0 Hb].
      cbn [quantity with_quantity]. unfold exact_integer. lia. }
  rewrite (addToCart_refines (with_quantity item q2)).
  - by rewrite addToCart_addToCart.
  - intros e He Hid. cbn [quantity with_quantity id] in *.
    assert (0 ≤ quantity e ∧ quantity e + q2 ≤ 2 ^ 53) as [H0 Hb].
    { destruct (id_present_dec (id item) l) as [Hex|Hno].
      - rewrite (addToCart_present _ (with_quantity item q1) Hex) in He.
        apply list_elem_of_In, in_map_iff in He as (x & Hx & Hin).
        apply list_elem_of_In in Hin. cbn [id with_quantity quantity] in Hx.
        destruct (bool_decide (id x = id item)) eqn:Hxid.
        + apply bool_decide_eq_true in Hxid.
          destruct (Hl x Hin Hxid) as [H0 Hb]. subst e.
          cbn [quantity with_quantity]. lia.
        + subst e. apply bool_decide_eq_false in Hxid. done.
      - rewrite (addToCart_absent _ (with_quantity item q1) Hno) in He.
        apply elem_of_app in He as [He|He].
        + exfalso. apply Hno. by exists e.
        + apply list_elem_of_singleton in He. subst e.
          cbn [quantity with_quantity]. lia. }
    unfold exact_integer. lia.
Qed.

Lemma addToCart_twice_adds_quantities_witness :
  Binary64.addToCart (embed (with_quantity (productA 0) 2))
    (Binary64.addToCart (embed (with_quantity (productA 0) 1))
       (embed <$> [productB 1; productA 4]))
  = Binary64.addToCart (embed (with_quantity (productA 0) (1 + 2)))
      (embed <$> [productB 1; productA 4]).
Proof.
  refine (proj1 (addToCart_twice_adds_quantities (productA 0) 1 2
                   [productB 1; productA 4] _ _ _ _)).
  - lia.
  - lia.
  - vm_compute. discriminate.
  - intros e He Hid. cbn in He.
    apply elem_of_cons in He as [->|He]; [discriminate Hid|].
    apply list_elem_of_singleton in He. subst e.
    split; vm_compute; discriminate.
Defined.

(** X5. On a cart that does not have the product, [n + 1] presses of the
    button of its page leave one new entry at the end, with quantity
    [n + 1]. *)
Theorem repeated_add_counts_presses (product : ProductDetail.Product)
  (n : nat) (st : CartStore) :
  (¬ ∃ e, e ∈ items st ∧ id e = ProductDetail.id product) →
  items (Nat.iter (S n) (ProductDetail.handleAddToCart product) st)
  = items st ++ [ProductDetail.cartItemOf product (Z.of_nat (S n))].
Proof.
  intros Hno. induction n as [|n IH].
  - change (Nat.iter 1 ?f st) with (f st).
    unfold ProductDetail.handleAddToCart. cbn [items addToCart setItems].
    by rewrite (addToCart_absent _ (ProductDetail.cartItemOf product 1) Hno).
  - change (Nat.iter (S (S n)) ?f st) with (f (Nat.iter (S n) f st)).
    unfold ProductDetail.handleAddToCart at 1.
    cbn [items addToCart setItems]. rewrite IH.
    assert (∃ e, e ∈ items st ++ [ProductDetail.cartItemOf product (Z.of_nat (S n))]
                 ∧ id e = id (ProductDetail.cartItemOf product 1)) as Hex.
    { eexists. split; [apply elem_of_app; right; by left | done]. }
    rewrite (addToCart_present _ _ Hex), List.map_app.
    rewrite (map_no_match (id (ProductDetail.cartItemOf product 1)) _ _ Hno).
    cbn [List.map].
    rewrite bool_decide_eq_true_2 by done. do 2 f_equal.
    unfold with_quantity, ProductDetail.cartItemOf. cbn. f_equal. lia.
Qed.

Lemma repeated_add_counts_presses_witness :
  items (Nat.iter 3
           (ProductDetail.handleAddToCart
              (ProductDetail.mkProduct "3" "商品C"
                 "これは商品Cの詳細な説明です。" 3000 "/images/product-c.jpg"))
           (readyStore [productA 1] ∅))
  = [productA 1;
     mkCartItem "3" "商品C" 3000 3 (Some "/images/product-c.jpg")].
Proof.
  apply (repeated_add_counts_presses
           (ProductDetail.mkProduct "3" "商品C"
              "これは商品Cの詳細な説明です。" 3000 "/images/product-c.jpg")
           2 (readyStore [productA 1] ∅)).
  intros (e & He & Hid). cbn in He.
  apply list_elem_of_singleton in He. subst e. discriminate Hid.
Defined.

(** X6. Two items with different ids can be added in either order: the
    two collections have the same entries, possibly in another order. *)
Theorem addToCart_order_of_distinct_ids (a b : CartItem) (st : CartStore) :
  id a ≠ id b →
  items (addToCart a (addToCart b st)) ≡ₚ items (addToCart b (addToCart a st)).
Proof.
  intros Hab. cbn [items addToCart setItems].
  set (fa := fun i => if bool_decide (id i = id a)
                      then with_quantity i (quantity i + quantity a) else i).
  set (fb := fun i => if bool_decide (id i = id b)
                      then with_quantity i (quantity i + quantity b) else i).
  assert (∀ i, fa (fb i) = fb (fa i)) as Hcomm.
  { intros i. subst fa fb. cbn beta.
    destruct (bool_decide (id i = id a)) eqn:Ha;
      destruct (bool_decide (id i = id b)) eqn:Hb;
      cbn [id with_quantity]; rewrite ?Ha, ?Hb; try done.
    apply bool_decide_eq_true in Ha, Hb. congruence. }
  assert (fa b = b) as Hfab
    by (subst fa; cbn beta; by rewrite bool_decide_eq_false_2).
  assert (fb a = a) as Hfba
    by (subst fb; cbn beta; by rewrite bool_decide_eq_false_2).
  assert (∀ (x : CartItem) (l l' : list CartItem),
            id <$> l = id <$> l' →
            (∃ e, e ∈ l ∧ id e = id x) ↔ (∃ e, e ∈ l' ∧ id e = id x)) as Hids.
  { intros x l l' Hll. split; apply find_by_id_ids; done. }
  destruct (id_present_dec (id a) (items st)) as [Ha|Ha];
    destruct (id_present_dec (id b) (items st)) as [Hb|Hb].
  - rewrite (addToCart_present _ b Hb), (addToCart_present _ a Ha).
    fold fa fb.
    rewrite (addToCart_present (List.map fb (items st)) a),
      (addToCart_present (List.map fa (items st)) b).
    + fold fa fb. rewrite !List.map_map.
      by rewrite (List.map_ext _ _ Hcomm).
    + apply (Hids b (items st)); [|done].
      symmetry. apply ids_addToCart_present.
    + apply (Hids a (items st)); [|done].
      symmetry. apply ids_addToCart_present.
  - rewrite (addToCart_absent _ b Hb), (addToCart_present _ a Ha). fold fa.
    rewrite (addToCart_present (items st ++ [b]) a),
      (addToCart_absent (List.map fa (items st)) b).
    + fold fa. by rewrite List.map_app; cbn [List.map]; rewrite Hfab.
    + intros Hex. apply Hb. apply (Hids b (items st)) in Hex; [done|].
      symmetry. apply ids_addToCart_present.
    + destruct Ha as (e & He & Hid). exists e.
      split; [apply elem_of_app; by left | done].
  - rewrite (addToCart_present _ b Hb), (addToCart_absent _ a Ha). fold fb.
    rewrite (addToCart_absent (List.map fb (items st)) a),
      (addToCart_present (items st ++ [a]) b).
    + fold fb. by rewrite List.map_app; cbn [List.map]; rewrite Hfba.
    + destruct Hb as (e & He & Hid). exists e.
      split; [apply elem_of_app; by left | done].
    + intros Hex. apply Ha. apply (Hids a (items st)) in Hex; [done|].
      symmetry. apply ids_addToCart_present.
  - rewrite (addToCart_absent _ b Hb), (addToCart_absent _ a Ha).
    rewrite (addToCart_absent (items st ++ [b]) a),
      (addToCart_absent (items st ++ [a]) b).
    + rewrite <- !app_assoc. apply Permutation_app_head. cbn.
      apply Permutation_swap.
    + intros (e & He & Hid). apply elem_of_app in He as [He|He].
      * apply Hb. by exists e.
      * apply list_elem_of_singleton in He. subst e. by apply Hab.
    + intros (e & He & Hid). apply elem_of_app in He as [He|He].
      * apply Ha. by exists e.
      * apply list_elem_of_singleton in He. subst e. by apply Hab.
Qed.

Lemma addToCart_order_of_distinct_ids_witness :
  items (addToCart (productA 1) (addToCart (productB 1) (readyStore [] ∅)))
  ≡ₚ items (addToCart (productB 1) (addToCart (productA 1) (readyStore [] ∅))).
Proof.
  apply (addToCart_order_of_distinct_ids (productA 1) (productB 1)
           (readyStore [] ∅)).
  discriminate.
Defined.

(** ** [updateQuantity] *)

(** [updateQuantity] of an id that no entry has gives the store back. *)
Lemma updateQuantity_absent (itemId : string) (q : Z) (st : CartStore) :
  (∀ e, e ∈ items st → id e ≠ itemId) →
  updateQuantity itemId q st = st.
Proof.
  intros Habsent. destruct st as [l b ls]. unfold updateQuantity, setItems.
  cbn [items isLoading localStorage] in *. f_equal.
  apply map_no_match. intros (e & He & Hid). by apply (Habsent e).
Qed.

(** X8. Of two [updateQuantity] in a row on one id the later one counts
    alone, and [updateQuantity] on two different ids can be done in
    either order. *)
Theorem updateQuantity_composition (st : CartStore) :
  (∀ (itemId : string) (q1 q2 : Z),
     updateQuantity itemId q2 (updateQuantity itemId q1 st)
     = updateQuantity itemId q2 st)
  ∧ (∀ (a b : string) (qa qb : Z),
       a ≠ b →
       updateQuantity a qa (updateQuantity b qb st)
       = updateQuantity b qb (updateQuantity a qa st)).
Proof.
  split.
  - intros itemId q1 q2. unfold updateQuantity, setItems.
    cbn [items isLoading localStorage]. f_equal.
    unfold Updater.updateQuantity. rewrite List.map_map.
    apply List.map_ext. intros i.
    destruct (bool_decide (id i = itemId)) eqn:Hi; cbn [id with_quantity];
      by rewrite Hi.
  - intros a b qa qb Hab. unfold updateQuantity, setItems.
    cbn [items isLoading localStorage]. f_equal.
    unfold Updater.updateQuantity. rewrite !List.map_map.
    apply List.map_ext. intros i.
    destruct (bool_decide (id i = a)) eqn:Ha;
      destruct (bool_decide (id i = b)) eqn:Hb;
      cbn [id with_quantity]; rewrite ?Ha, ?Hb; try done.
    apply bool_decide_eq_true in Ha, Hb. congruence.
Qed.

(** ** The total of the cart page *)

Lemma fold_total (l : list CartItem) (a : Z) :
  fold_left (fun total item => total + price item * quantity item) l a
  = a + cartTotal l.
Proof.
  unfold cartTotal. revert a. induction l as [|x l IH]; intros a; cbn; [lia|].
  rewrite (IH (a + _)), (IH (0 + _)). lia.
Qed.

Lemma cartTotal_cons (x : CartItem) (l : list CartItem) :
  cartTotal (x :: l) = price x * quantity x + cartTotal l.
Proof. unfold cartTotal at 1. cbn. by rewrite fold_total. Qed.

Lemma cartTotal_app (l1 l2 : list CartItem) :
  cartTotal (l1 ++ l2) = cartTotal l1 + cartTotal l2.
Proof.
  induction l1 as [|x l1 IH]; [done|].
  cbn [app]. rewrite !cartTotal_cons, IH. lia.
Qed.

(** With distinct ids, rewriting the quantity of the entries with one id
    moves the total by what the one entry with that id contributes. *)
Lemma cartTotal_requantified (g : CartItem → Z) (l : list CartItem)
  (e : CartItem) :
  NoDup (id <$> l) → e ∈ l →
  cartTotal (List.map (fun i => if bool_decide (id i = id e)
                                then with_quantity i (g i) else i) l)
  = cartTotal l - price e * quantity e + price e * g e.
Proof.
  induction l as [|a l IH]; intros Hnd He; [by apply elem_of_nil in He|].
  apply NoDup_cons in Hnd as [Ha Hnd]. cbn [List.map].
  rewrite !cartTotal_cons. apply elem_of_cons in He as [->|He].
  - rewrite bool_decide_eq_true_2 by done. rewrite map_no_match.
    + cbn [price quantity with_quantity]. lia.
    + intros (x & Hx & Hid). apply Ha. rewrite <- Hid.
      by apply list_elem_of_fmap_2.
  - rewrite bool_decide_eq_false_2.
    + rewrite (IH Hnd He). lia.
    + intros Hid. apply Ha. rewrite Hid. by apply list_elem_of_fmap_2.
Qed.

Lemma cartTotal_delete (l : list CartItem) (k : nat) (e : CartItem) :
  l !! k = Some e →
  cartTotal (delete k l) = cartTotal l - price e * quantity e.
Proof.
  revert k. induction l as [|a l IH]; intros k Hk; [done|].
  destruct k as [|k].
  - injection Hk as ->. change (delete 0%nat (e :: l)) with l.
    rewrite cartTotal_cons. lia.
  - cbn in Hk. change (delete (S k) (a :: l)) with (a :: delete k l).
    rewrite !cartTotal_cons, (IH _ Hk). lia.
Qed.

Lemma cartTotal_nonneg (l : list CartItem) :
  Forall countable l → 0 ≤ cartTotal l.
Proof.
  induction 1 as [|x l [Hp Hq] _ IH]; [done|].
  rewrite cartTotal_cons. nia.
Qed.

Lemma fold_total_refines (l : list CartItem) (a : Z) :
  Forall countable l → 0 ≤ a → a + cartTotal l ≤ 2 ^ 53 →
  fold_left (fun total item =>
               Binary64.add total
                 (Binary64.mul (Binary64.price item) (Binary64.quantity item)))
    (embed <$> l) (Binary64.of_Z a)
  = Binary64.of_Z (a + cartTotal l).
Proof.
  intros Hl. revert a. induction Hl as [|x l [Hp Hq] Hl IH]; intros a Ha Hsum.
  - change (cartTotal []) with 0. by rewrite Z.add_0_r.
  - rewrite cartTotal_cons in Hsum |- *.
    pose proof (cartTotal_nonneg l Hl) as Hrest.
    assert (0 ≤ price x * quantity x) as Hpq by nia.
    cbn [fmap list_fmap fold_left embed Binary64.price Binary64.quantity].
    rewrite Binary64_mul_exact by lia.
    rewrite Binary64_add_exact by lia.
    rewrite IH by lia. f_equal. lia.
Qed.

(** Where prices and counts are whole and the total stays within 2^53,
    the total on doubles is the total on integers. *)
Lemma cartTotal_refines (l : list CartItem) :
  Forall countable l → cartTotal l ≤ 2 ^ 53 →
  Binary64.cartTotal (embed <$> l) = Binary64.of_Z (cartTotal l).
Proof.
  intros Hl Hsum. unfold Binary64.cartTotal.
  by rewrite (fold_total_refines l 0 Hl).
Qed.

Lemma countable_exact (e : CartItem) : countable e → exact_item e.
Proof. intros [Hp Hq]. unfold exact_item, exact_integer. lia. Qed.

Lemma addToCart_countable (item : CartItem) (l : list CartItem) :
  Forall countable l → countable item →
  (∀ e, e ∈ l → id e = id item → quantity e + quantity item ≤ 2 ^ 53) →
  Forall countable (Updater.addToCart item l).
Proof.
  intros Hl Hitem Hsum. unfold Updater.addToCart.
  destruct (List.find _ l).
  - apply Forall_forall. intros x Hx.
    apply list_elem_of_In, in_map_iff in Hx as (e & He & Hin).
    apply list_elem_of_In in Hin.
    rewrite Forall_forall in Hl. destruct (Hl e Hin) as [Hp Hq].
    destruct (bool_decide (id e = id item)) eqn:Hid; subst x; [|done].
    apply bool_decide_eq_true in Hid. specialize (Hsum e Hin Hid).
    destruct Hitem as [_ Hq']. split; cbn [price quantity with_quantity]; lia.
  - apply Forall_app. split; [done|]. by constructor.
Qed.

Lemma updateQuantity_countable (itemId : string) (q : Z) (l : list CartItem) :
  Forall countable l → 0 ≤ q ≤ 2 ^ 53 →
  Forall countable (Updater.updateQuantity itemId q l).
Proof.
  intros Hl Hq. unfold Updater.updateQuantity.
  apply Forall_forall. intros x Hx.
  apply list_elem_of_In, in_map_iff in Hx as (e & He & Hin).
  apply list_elem_of_In in Hin.
  rewrite Forall_forall in Hl. destruct (Hl e Hin) as [Hp Hq'].
  destruct (bool_decide (id e = itemId)); subst x; [|done].
  split; cbn [price quantity with_quantity]; lia.
Qed.

Lemma removeFromCart_countable (itemId : string) (l : list CartItem) :
  Forall countable l → Forall countable (Updater.removeFromCart itemId l).
Proof.
  intros Hl. apply Forall_forall. intros x Hx.
  apply list_elem_of_In, filter_In in Hx as [Hx _].
  rewrite Forall_forall in Hl. by apply Hl, list_elem_of_In.
Qed.

(** In the integer model: what [addToCart] does to the total. *)
Lemma cartTotal_addToCart (item : CartItem) (l : list CartItem) :
  ((¬ ∃ e, e ∈ l ∧ id e = id item) →
     cartTotal (Updater.addToCart item l)
     = cartTotal l + price item * quantity item)
  ∧ (∀ e, NoDup (id <$> l) → e ∈ l → id e = id item →
       cartTotal (Updater.addToCart item l)
       = cartTotal l + price e * quantity item).
Proof.
  split.
  - intros Hno. rewrite (addToCart_absent _ _ Hno), cartTotal_app.
    rewrite cartTotal_cons. change (cartTotal []) with 0. lia.
  - intros e Hnd He Hid.
    assert (∃ x, x ∈ l ∧ id x = id item) as Hex by by exists e.
    rewrite (addToCart_present _ _ Hex), <- Hid.
    rewrite (cartTotal_requantified
               (fun i => quantity i + quantity item) _ e Hnd He). lia.
Qed.

(** In the integer model: what [updateQuantity] and [removeFromCart] do
    to the total. *)
Lemma cartTotal_update_and_remove (l : list CartItem) (e : CartItem) (q : Z) :
  NoDup (id <$> l) → e ∈ l →
  cartTotal (Updater.updateQuantity (id e) q l)
  = cartTotal l + price e * (q - quantity e)
  ∧ cartTotal (Updater.removeFromCart (id e) l)
    = cartTotal l - price e * quantity e.
Proof.
  intros Hnd He. split.
  - unfold Updater.updateQuantity.
    rewrite (cartTotal_requantified (fun _ => q) _ e Hnd He). lia.
  - apply list_elem_of_lookup in He as [k Hk].
    rewrite (removeFromCart_position _ _ _ Hnd Hk).
    by apply cartTotal_delete.
Qed.

(** X9. On doubles, for whole prices and counts and totals within
    2^53, what [addToCart] does to the total of the page: an item whose
    id is new adds its own price times its quantity; an item whose id is
    in a collection of distinct ids adds the price of the entry already
    there times the quantity of the item, whatever price the item
    carries. *)
Theorem cartTotal_after_addToCart (item : CartItem) (l : list CartItem) :
  Forall countable l → countable item →
  (∀ e, e ∈ l → id e = id item → quantity e + quantity item ≤ 2 ^ 53) →
  cartTotal l ≤ 2 ^ 53 →
  Binary64.cartTotal (embed <$> l) = Binary64.of_Z (cartTotal l)
  ∧ ((¬ ∃ e, e ∈ l ∧ id e = id item) →
       cartTotal l + price item * quantity item ≤ 2 ^ 53 →
       Binary64.cartTotal (Binary64.addToCart (embed item) (embed <$> l))
       = Binary64.of_Z (cartTotal l + price item * quantity item))
  ∧ (∀ e, NoDup (id <$> l) → e ∈ l → id e = id item →
       cartTotal l + price e * quantity item ≤ 2 ^ 53 →
       Binary64.cartTotal (Binary64.addToCart (embed item) (embed <$> l))
       = Binary64.of_Z (cartTotal l + price e * quantity item)).
Proof.
  intros Hl Hitem Hsum Htotal.
  assert (Binary64.addToCart (embed item) (embed <$> l)
          = embed <$> Updater.addToCart item l) as Hadd.
  { apply addToCart_refines. intros e He Hid. rewrite Forall_forall in Hl.
    destruct (Hl e He) as [_ Hq]. destruct Hitem as [_ Hq'].
    specialize (Hsum e He Hid). unfold exact_integer. lia. }
  pose proof (addToCart_countable item l Hl Hitem Hsum) as Hafter.
  destruct (cartTotal_addToCart item l) as [Hnew Hold].
  split; [by apply cartTotal_refines|]. split.
  - intros Hno Hbound. rewrite Hadd, <- (Hnew Hno).
    apply cartTotal_refines; [done|]. by rewrite (Hnew Hno).
  - intros e Hnd He Hid Hbound. rewrite Hadd, <- (Hold e Hnd He Hid).
    apply cartTotal_refines; [done|]. by rewrite (Hold e Hnd He Hid).
Qed.

Lemma cartTotal_after_addToCart_witness :
  Binary64.cartTotal
    (Binary64.addToCart (embed (mkCartItem "1" "other name" 5 2 None))
       (embed <$> [productA 1; productB 1]))
  = Binary64.of_Z (cartTotal [productA 1; productB 1] + 1000 * 2).
Proof.
  refine (proj2 (proj2 (cartTotal_after_addToCart
                          (mkCartItem "1" "other name" 5 2 None)
                          [productA 1; productB 1] _ _ _ _))
            (productA 1) _ _ _ _).
  - repeat constructor; vm_compute; discriminate.
  - repeat constructor; vm_compute; discriminate.
  - intros e He Hid. cbn in He.
    apply elem_of_cons in He as [->|He]; [vm_compute; discriminate|].
    apply list_elem_of_singleton in He. subst e. discriminate Hid.
  - vm_compute. discriminate.
  - cbn. apply NoDup_cons. split; [|apply NoDup_singleton].
    intros Hin. apply list_elem_of_singleton in Hin. discriminate Hin.
  - left.
  - reflexivity.
  - vm_compute. discriminate.
Defined.

(** X10. On doubles, for whole prices and counts and totals within
    2^53: in a collection of distinct ids, [updateQuantity] of the id of
    an entry moves the total by the price of that entry times the change
    of its quantity, and [removeFromCart] of that id lowers the total by
    what the entry contributed. *)
Theorem cartTotal_after_update_and_remove (l : list CartItem)
  (e : CartItem) (q : Z) :
  Forall countable l → cartTotal l ≤ 2 ^ 53 →
  NoDup (id <$> l) → e ∈ l →
  (0 ≤ q ≤ 2 ^ 53 →
   cartTotal l + price e * (q - quantity e) ≤ 2 ^ 53 →
   Binary64.cartTotal
     (Binary64.updateQuantity (id e) (Binary64.of_Z q) (embed <$> l))
   = Binary64.of_Z (cartTotal l + price e * (q - quantity e)))
  ∧ Binary64.cartTotal (Binary64.removeFromCart (id e) (embed <$> l))
    = Binary64.of_Z (cartTotal l - price e * quantity e).
Proof.
  intros Hl Htotal Hnd He.
  destruct (cartTotal_update_and_remove l e q Hnd He) as [Hupdate Hremove].
  split.
  - intros Hq Hafter. rewrite updateQuantity_refines, <- Hupdate.
    apply cartTotal_refines; [by apply updateQuantity_countable|].
    by rewrite Hupdate.
  - rewrite removeFromCart_refines, <- Hremove.
    apply cartTotal_refines; [by apply removeFromCart_countable|].
    rewrite Hremove. rewrite Forall_forall in Hl.
    destruct (Hl e He) as [Hp Hq]. nia.
Qed.

Lemma cartTotal_after_update_and_remove_witness :
  Binary64.cartTotal
    (Binary64.removeFromCart "2" (embed <$> [productA 1; productB 1]))
  = Binary64.of_Z (cartTotal [productA 1; productB 1] - 2000 * 1).
Proof.
  refine (proj2 (cartTotal_after_update_and_remove
                   [productA 1; productB 1] (productB 1) 5 _ _ _ _)).
  - repeat constructor; vm_compute; discriminate.
  - vm_compute. discriminate.
  - cbn. apply NoDup_cons. split; [|apply NoDup_singleton].
    intros Hin. apply list_elem_of_singleton in Hin. discriminate Hin.
  - right. left.
Defined.

(** ** The cart page and its delete buttons *)

Section CartPageFacts.
Context {P : Platform}.

(** In the integer model: the page after the delete button of the
    [k]-th card. *)
Lemma cart_page_after_delete (st : CartStore) (rows : list CartRow)
  (total : Z) (k : nat) (r : CartRow) (t : Z) :
  NoDup (id <$> items st) →
  CartPage (CartContext.provide st) = ListView rows total →
  rows !! k = Some r →
  CartPage (CartContext.provide (step st (t, RemoveFromCart (row_delete r))))
  = if decide (length rows = 1%nat) then EmptyView
    else ListView (delete k rows) (total - row_price r * row_quantity r).
Proof.
  intros Hnd Hview Hk. unfold CartPage, CartContext.provide in *.
  cbn [CartContext.ctx_isLoading CartContext.ctx_items] in *.
  rewrite isLoading_step. unfold step. cbn [fst snd]. rewrite items_persist.
  destruct (isLoading st); [done|].
  destruct (length (items st) =? 0)%nat; [done|].
  injection Hview as <- <-.
  rewrite list_lookup_fmap in Hk.
  destruct (items st !! k) as [e|] eqn:He; [|done].
  injection Hk as <-. cbn [row_delete row_price row_quantity cartRow dispatch].
  rewrite items_removeFromCart, (removeFromCart_position _ _ _ Hnd He).
  rewrite length_fmap.
  pose proof (lookup_lt_Some _ _ _ He) as Hlt.
  pose proof (length_delete (items st) k ltac:(by eexists)) as Hlen.
  destruct (decide (length (items st) = 1%nat)) as [Hone|Hmore].
  - destruct (delete k (items st)); [done|]. cbn in Hlen. lia.
  - destruct (delete k (items st)) as [|a l] eqn:Hdel.
    + cbn in Hlen. lia.
    + rewrite <- Hdel. cbn [length Nat.eqb].
      replace (length (delete k (items st)) =? 0)%nat with false.
      * by rewrite list_fmap_delete, (cartTotal_delete _ _ _ He).
      * symmetry. apply Nat.eqb_neq. rewrite Hdel. cbn. lia.
Qed.

(** X11. The page shows the list for a collection of distinct ids, with
    whole prices and counts and a total within 2^53; the delete button
    of its [k]-th card is pressed.  The next render shows the same cards
    without the [k]-th, and a total lowered by the price times the
    quantity on that card; if the card was the only one, it shows the
    empty-cart message.  Both totals are the ones that the page computes
    on doubles. *)
Theorem cart_page_delete_button (st : CartStore) (rows : list CartRow)
  (total : Z) (k : nat) (r : CartRow) (t : Z) :
  NoDup (id <$> items st) →
  Forall countable (items st) →
  cartTotal (items st) ≤ 2 ^ 53 →
  CartPage (CartContext.provide st) = ListView rows total →
  rows !! k = Some r →
  CartPage (CartContext.provide (step st (t, RemoveFromCart (row_delete r))))
  = (if decide (length rows = 1%nat) then EmptyView
     else ListView (delete k rows) (total - row_price r * row_quantity r))
  ∧ Binary64.cartTotal (embed <$> items st) = Binary64.of_Z total
  ∧ Binary64.cartTotal
      (embed <$> items (step st (t, RemoveFromCart (row_delete r))))
    = Binary64.of_Z (total - row_price r * row_quantity r).
Proof.
  intros Hnd Hl Hsum Hview Hk.
  split; [by apply cart_page_after_delete|].
  unfold CartPage, CartContext.provide in Hview.
  cbn [CartContext.ctx_isLoading CartContext.ctx_items] in Hview.
  destruct (isLoading st); [done|].
  destruct (length (items st) =? 0)%nat; [done|].
  injection Hview as <- <-.
  rewrite list_lookup_fmap in Hk.
  destruct (items st !! k) as [e|] eqn:He; [|done].
  injection Hk as <-. cbn [row_delete row_price row_quantity cartRow].
  split; [by apply cartTotal_refines|].
  rewrite items_step_removeFromCart.
  rewrite <- (cartTotal_delete _ _ _ He),
    <- (removeFromCart_position _ _ _ Hnd He).
  apply cartTotal_refines; [by apply removeFromCart_countable|].
  rewrite (removeFromCart_position _ _ _ Hnd He), (cartTotal_delete _ _ _ He).
  apply list_elem_of_lookup_2 in He. rewrite Forall_forall in Hl.
  destruct (Hl e He) as [Hp Hq]. nia.
Qed.

End CartPageFacts.

Lemma cart_page_delete_button_witness :
  CartPage (CartContext.provide
              (step (P := Reference.platform)
                 (readyStore [productA 2; productB 1] storageWithProductA)
                 (1730600000000, RemoveFromCart "1")))
  = ListView [cartRow (productB 1)] 2000.
Proof.
  refine (proj1 (cart_page_delete_button (P := Reference.platform)
           (readyStore [productA 2; productB 1] storageWithProductA)
           [cartRow (productA 2); cartRow (productB 1)] 4000 0
           (cartRow (productA 2)) 1730600000000 _ _ _ _ _)).
  - cbn. apply NoDup_cons. split; [|apply NoDup_singleton].
    intros Hin. apply list_elem_of_singleton in Hin. discriminate Hin.
  - repeat constructor; vm_compute; discriminate.
  - vm_compute. discriminate.
  - reflexivity.
  - reflexivity.
Defined.

(** ** The storage outside the slot, and the edges of the load *)

Section StorageFacts.
Context {P : Platform}.

Lemma dispatch_other_keys (m : mutation) (st : CartStore) (k : string) :
  k ≠ CART_STORAGE_KEY → k ≠ CART_TIMESTAMP_KEY →
  getItem k (localStorage (dispatch m st)) = getItem k (localStorage st).
Proof.
  intros Hk1 Hk2. destruct m; cbn [dispatch]; try done.
  - by apply removeFromCart_other_keys.
  - unfold clearCart. by rewrite removeSnapshot_other_keys.
Qed.

Lemma step_other_keys (st : CartStore) (ev : Z * mutation) (k : string) :
  k ≠ CART_STORAGE_KEY → k ≠ CART_TIMESTAMP_KEY →
  getItem k (localStorage (step st ev)) = getItem k (localStorage st).
Proof.
  intros Hk1 Hk2. unfold step.
  rewrite persist_other_keys by done. by apply dispatch_other_keys.
Qed.

Lemma mount_other_keys (loadTime persistTime : Z) (ls : Storage)
  (st : CartStore) (k : string) :
  k ≠ CART_STORAGE_KEY → k ≠ CART_TIMESTAMP_KEY →
  mount loadTime persistTime ls = Returns st →
  getItem k (localStorage st) = getItem k ls.
Proof.
  intros Hk1 Hk2. unfold mount, loadCartData.
  cbn [localStorage initialStore items isLoading].
  destruct (truthy (getItem CART_TIMESTAMP_KEY ls) && _).
  - intros [= <-]. rewrite persist_other_keys by done. storage_simpl.
  - destruct (truthy (getItem CART_STORAGE_KEY ls)).
    + destruct (JSON_parse _) as [parsed|]; [|done].
      intros [= <-]. by rewrite persist_other_keys.
    + intros [= <-]. by rewrite persist_other_keys.
Qed.

(** X12. Whatever pages are loaded and whatever the cart is asked to do,
    every key of the storage other than [ec-cart-items] and
    [ec-cart-timestamp] keeps the value it had, or stays absent. *)
Theorem other_storage_keys_untouched (evs : list event) (b : browser)
  (k : string) :
  k ≠ CART_STORAGE_KEY → k ≠ CART_TIMESTAMP_KEY →
  getItem k (storage_of (fold_left browse evs b)) = getItem k (storage_of b).
Proof.
  intros Hk1 Hk2. revert b. induction evs as [|ev evs IH]; intros b; [done|].
  cbn [fold_left]. rewrite IH. destruct ev as [loadTime persistTime|t m].
  - cbn [browse]. destruct (mount _ _ _) as [st|e] eqn:Hmount; [|done].
    by apply (mount_other_keys _ _ _ _ _ Hk1 Hk2 Hmount).
  - destruct b as [ls|st]; [done|]. by apply step_other_keys.
Qed.

(** X13. A load that takes over a non-empty snapshot writes it back at
    once with the time of the visit as its timestamp: the 24 hours count
    from the last visit, not from the last change of the cart. *)
Theorem mount_renews_timestamp (ls : Storage) (loadTime persistTime : Z)
  (s : string) (l : list CartItem) :
  unexpired loadTime ls →
  getItem CART_STORAGE_KEY ls = Some s → s ≠ EmptyString →
  JSON_parse s = Some l → l ≠ [] →
  ∃ st, mount loadTime persistTime ls = Returns st
        ∧ items st = l
        ∧ getItem CART_STORAGE_KEY (localStorage st) = Some (JSON_stringify l)
        ∧ getItem CART_TIMESTAMP_KEY (localStorage st)
          = Some (Date_toISOString persistTime).
Proof.
  intros Hfresh Hs Hne Hparse Hl. unfold mount.
  rewrite (loadCartData_snapshot _ _ _ _ Hfresh Hs Hne Hparse).
  eexists. split; [reflexivity|]. rewrite items_persist.
  cbn [items onStorage]. split; [done|].
  by apply (persist_ready_lookup persistTime).
Qed.

(** X14. A timestamp that is not a date never expires: whenever the load
    runs, the stored list is taken over. *)
Theorem unparsable_timestamp_never_expires (ls : Storage)
  (loadTime persistTime : Z) (ts s : string) (l : list CartItem) :
  getItem CART_TIMESTAMP_KEY ls = Some ts → Date_parse ts = None →
  getItem CART_STORAGE_KEY ls = Some s → s ≠ EmptyString →
  JSON_parse s = Some l →
  ∃ st, mount loadTime persistTime ls = Returns st ∧ items st = l.
Proof.
  intros Hts Hdate Hs Hne Hparse. unfold mount, loadCartData.
  cbn [localStorage initialStore]. rewrite Hts, Hs.
  change (default EmptyString (Some ts)) with ts.
  change (default EmptyString (Some s)) with s.
  rewrite (expired_unparsable _ _ Hdate), andb_false_r.
  cbn [truthy]. rewrite bool_decide_eq_false_2 by done. cbn [negb].
  rewrite Hparse. eexists. split; [reflexivity|]. by rewrite items_persist.
Qed.

Lemma mount_corrupt (ls : Storage) (loadTime persistTime : Z) :
  corrupt_for_good ls →
  mount loadTime persistTime ls = Throws "SyntaxError".
Proof.
  intros [(s & Hs & Hne & Hparse) Hts]. unfold mount, loadCartData.
  cbn [localStorage initialStore]. rewrite Hs.
  change (default EmptyString (Some s)) with s.
  assert (truthy (getItem CART_TIMESTAMP_KEY ls)
          && expired loadTime
               (default EmptyString (getItem CART_TIMESTAMP_KEY ls)) = false)
    as ->.
  { destruct Hts as [-> | (ts & -> & Hdate)]; [done|].
    change (default EmptyString (Some ts)) with ts.
    by rewrite (expired_unparsable _ _ Hdate), andb_false_r. }
  cbn [truthy]. rewrite bool_decide_eq_false_2 by done. cbn [negb].
  by rewrite Hparse.
Qed.

(** X15. With such a snapshot in the storage every load throws before it
    writes anything, so the page never opens again and the storage stays
    as it is, however often the page is visited. *)
Theorem corrupt_snapshot_is_never_repaired (ls : Storage)
  (evs : list event) :
  corrupt_for_good ls →
  fold_left browse evs (Closed ls) = Closed ls.
Proof.
  intros Hbad. induction evs as [|ev evs IH]; [done|].
  cbn [fold_left]. destruct ev as [loadTime persistTime|t m].
  - cbn [browse storage_of]. by rewrite (mount_corrupt _ _ _ Hbad).
  - done.
Qed.

(** X16. After a mutation of a store whose load has completed, a
    non-empty collection is in the slot as its own text, with the time of
    this step as timestamp, whether or not the mutation changed
    anything. *)
Theorem every_step_rewrites_the_slot (st : CartStore) (t : Z)
  (m : mutation) :
  isLoading st = false →
  items (step st (t, m)) ≠ [] →
  getItem CART_STORAGE_KEY (localStorage (step st (t, m)))
  = Some (JSON_stringify (items (step st (t, m))))
  ∧ getItem CART_TIMESTAMP_KEY (localStorage (step st (t, m)))
    = Some (Date_toISOString t).
Proof.
  intros Hready Hne. unfold step in *. cbn [fst snd] in *.
  rewrite items_persist in *. apply persist_ready_lookup; [|done].
  by rewrite isLoading_dispatch.
Qed.

End StorageFacts.

Lemma other_storage_keys_untouched_witness :
  getItem "theme"
    (storage_of
       (fold_left (browse (P := Reference.platform))
          [Visit 1000 1001; Act 2000 (AddToCart (productA 1));
           Act 3000 ClearCart; Visit 4000 4001]
          (Closed (<["theme" := "dark"]> storageWithProductA))))
  = getItem "theme"
      (storage_of (Closed (<["theme" := "dark"]> storageWithProductA))).
Proof.
  apply (other_storage_keys_untouched (P := Reference.platform)
           [Visit 1000 1001; Act 2000 (AddToCart (productA 1));
            Act 3000 ClearCart; Visit 4000 4001]
           (Closed (<["theme" := "dark"]> storageWithProductA)) "theme");
    discriminate.
Defined.

Lemma mount_renews_timestamp_witness :
  ∃ st, mount (P := Reference.platform)
          (1730599200123 + 3600000) (1730599200123 + 3600005)
          storageWithProductA = Returns st
        ∧ items st = [productA 1]
        ∧ getItem CART_STORAGE_KEY (localStorage st)
          = Some (Reference.stringify [productA 1])
        ∧ getItem CART_TIMESTAMP_KEY (localStorage st)
          = Some (Reference.toISOString (1730599200123 + 3600005)).
Proof.
  apply (mount_renews_timestamp (P := Reference.platform)
           storageWithProductA
           (1730599200123 + 3600000) (1730599200123 + 3600005)
           (Reference.stringify [productA 1]) [productA 1]).
  - right. exists "2024-11-03T02:00:00.123Z", 1730599200123.
    split; [vm_compute; reflexivity|].
    split; [vm_compute; reflexivity|].
    vm_compute. discriminate.
  - vm_compute. reflexivity.
  - discriminate.
  - vm_compute. reflexivity.
  - discriminate.
Defined.

Lemma unparsable_timestamp_never_expires_witness :
  ∃ st, mount (P := Reference.platform)
          (1730599200123 + 1000 * 86400000) (1730599200123 + 1000 * 86400000)
          storageWithBadTimestamp = Returns st
        ∧ items st = [productA 1].
Proof.
  apply (unparsable_timestamp_never_expires (P := Reference.platform)
           storageWithBadTimestamp
           (1730599200123 + 1000 * 86400000) (1730599200123 + 1000 * 86400000)
           "yesterday" (Reference.stringify [productA 1]) [productA 1]).
  - vm_compute. reflexivity.
  - vm_compute. reflexivity.
  - vm_compute. reflexivity.
  - discriminate.
  - vm_compute. reflexivity.
Defined.

Lemma corrupt_snapshot_is_never_repaired_witness :
  fold_left (browse (P := Reference.platform))
    [Visit 1000 1001; Act 2000 (AddToCart (productA 1)); Visit 90000000 90000001]
    (Closed storageWithBadItems)
  = Closed storageWithBadItems.
Proof.
  apply (corrupt_snapshot_is_never_repaired (P := Reference.platform)).
  split.
  - exists "{oops". split; [vm_compute; reflexivity|].
    split; [discriminate | vm_compute; reflexivity].
  - left. vm_compute. reflexivity.
Defined.

Lemma every_step_rewrites_the_slot_witness :
  getItem CART_STORAGE_KEY
    (localStorage (step (P := Reference.platform)
                     (readyStore [productA 1] storageWithProductA)
                     (1730600000000, UpdateQuantity "9" 3)))
  = Some (Reference.stringify [productA 1])
  ∧ getItem CART_TIMESTAMP_KEY
      (localStorage (step (P := Reference.platform)
                       (readyStore [productA 1] storageWithProductA)
                       (1730600000000, UpdateQuantity "9" 3)))
    = Some (Reference.toISOString 1730600000000).
Proof.
  apply (every_step_rewrites_the_slot (P := Reference.platform)
           (readyStore [productA 1] storageWithProductA) 1730600000000
           (UpdateQuantity "9" 3)).
  - reflexivity.
  - discriminate.
Defined.

(** ** A call that changes nothing, and the effect that follows it *)

Section StepFacts.
Context {P : Platform}.

(** X3. [removeFromCart] is called a second time with the same id, each
    call followed by its render.  The collection stays as the first call
    left it, and so does the stored item list; when the collection is
    not empty the effect of the second render replaces the stored
    timestamp by its own time, and when it is empty neither key is
    there, after the first call as after the second.  Other keys are
    untouched. *)
Theorem removeFromCart_again_moves_only_timestamp (itemId : string)
  (st : CartStore) (t1 t2 : Z) :
  isLoading st = false →
  items (step (step st (t1, RemoveFromCart itemId)) (t2, RemoveFromCart itemId))
  = items (step st (t1, RemoveFromCart itemId))
  ∧ getItem CART_STORAGE_KEY
      (localStorage (step (step st (t1, RemoveFromCart itemId))
                       (t2, RemoveFromCart itemId)))
    = getItem CART_STORAGE_KEY
        (localStorage (step st (t1, RemoveFromCart itemId)))
  ∧ (items (step st (t1, RemoveFromCart itemId)) ≠ [] →
       getItem CART_TIMESTAMP_KEY
         (localStorage (step (step st (t1, RemoveFromCart itemId))
                          (t2, RemoveFromCart itemId)))
       = Some (Date_toISOString t2))
  ∧ (items (step st (t1, RemoveFromCart itemId)) = [] →
       slot_absent (localStorage (step st (t1, RemoveFromCart itemId)))
       ∧ slot_absent
           (localStorage (step (step st (t1, RemoveFromCart itemId))
                            (t2, RemoveFromCart itemId))))
  ∧ (∀ k : string, k ≠ CART_STORAGE_KEY → k ≠ CART_TIMESTAMP_KEY →
       getItem k (localStorage (step (step st (t1, RemoveFromCart itemId))
                                  (t2, RemoveFromCart itemId)))
       = getItem k (localStorage st)).
Proof.
  intros Hready.
  assert (isLoading (step st (t1, RemoveFromCart itemId)) = false) as Hready1
    by (by rewrite isLoading_step).
  assert (items (step (step st (t1, RemoveFromCart itemId))
                   (t2, RemoveFromCart itemId))
          = items (step st (t1, RemoveFromCart itemId))) as Hsame
    by (by rewrite !items_step_removeFromCart, removeFromCart_twice).
  split; [done|]. split; [|split; [|split]].
  - destruct (decide (items (step st (t1, RemoveFromCart itemId)) = []))
      as [Hnil|Hne].
    + assert (Updater.removeFromCart itemId (items st) = []) as Hnil1
        by (by rewrite <- (items_step_removeFromCart _ t1)).
      assert (Updater.removeFromCart itemId
                (items (step st (t1, RemoveFromCart itemId))) = []) as Hnil2
        by (by rewrite <- (items_step_removeFromCart _ t2), Hsame).
      destruct (step_removeFromCart_to_empty t1 _ _ Hnil1) as [_ [-> _]].
      by destruct (step_removeFromCart_to_empty t2 _ _ Hnil2) as [_ [-> _]].
    + destruct (step_lookup _ t1 _ Hready Hne) as [-> _].
      rewrite <- Hsame in Hne.
      destruct (step_lookup _ t2 _ Hready1 Hne) as [-> _]. by rewrite Hsame.
  - intros Hne. rewrite <- Hsame in Hne.
    by destruct (step_lookup _ t2 _ Hready1 Hne) as [_ ->].
  - intros Hnil. split.
    + apply step_removeFromCart_to_empty.
      by rewrite <- (items_step_removeFromCart _ t1).
    + apply step_removeFromCart_to_empty.
      by rewrite <- (items_step_removeFromCart _ t2), Hsame.
  - intros k Hk1 Hk2. by rewrite !step_other_keys.
Qed.

(** X7. [updateQuantity] of an id that no entry has leaves the
    collection as it is.  The render that follows runs the effect: for a
    non-empty collection the stored item list is the serialization of
    that same collection and the stored timestamp is the time of this
    effect; for the empty collection the store, storage included, is as
    it was.  Other keys are untouched. *)
Theorem updateQuantity_absent_id_keeps_items_refreshes_timestamp
  (st : CartStore) (itemId : string) (q t : Z) :
  isLoading st = false →
  (∀ e, e ∈ items st → id e ≠ itemId) →
  items (step st (t, UpdateQuantity itemId q)) = items st
  ∧ (items st ≠ [] →
       getItem CART_STORAGE_KEY (localStorage (step st (t, UpdateQuantity itemId q)))
         = Some (JSON_stringify (items st))
       ∧ getItem CART_TIMESTAMP_KEY (localStorage (step st (t, UpdateQuantity itemId q)))
         = Some (Date_toISOString t))
  ∧ (items st = [] → step st (t, UpdateQuantity itemId q) = st)
  ∧ (∀ k : string, k ≠ CART_STORAGE_KEY → k ≠ CART_TIMESTAMP_KEY →
       getItem k (localStorage (step st (t, UpdateQuantity itemId q)))
       = getItem k (localStorage st)).
Proof.
  intros Hready Habsent.
  assert (dispatch (UpdateQuantity itemId q) st = st) as Hnoop
    by (by apply updateQuantity_absent).
  assert (items (step st (t, UpdateQuantity itemId q)) = items st) as Hsame
    by (unfold step; cbn [fst snd]; by rewrite items_persist, Hnoop).
  split; [done|]. split; [|split].
  - intros Hne. rewrite <- Hsame in Hne |- *. by apply step_lookup.
  - intros Hnil. unfold step. cbn [fst snd]. rewrite Hnoop.
    by apply persist_empty.
  - intros k Hk1 Hk2. by apply step_other_keys.
Qed.

End StepFacts.

Lemma removeFromCart_again_moves_only_timestamp_witness :
  getItem CART_TIMESTAMP_KEY
    (localStorage
       (step (P := Reference.platform)
          (step (P := Reference.platform)
             (readyStore [productA 1; productB 2] storageWithProductA)
             (1730600000000, RemoveFromCart "1"))
          (1730600060000, RemoveFromCart "1")))
  = Some "2024-11-03T02:14:20.000Z".
Proof.
  refine (proj1 (proj2 (proj2 (removeFromCart_again_moves_only_timestamp
                                 (P := Reference.platform) "1"
                                 (readyStore [productA 1; productB 2]
                                    storageWithProductA)
                                 1730600000000 1730600060000 _))) _).
  - reflexivity.
  - vm_compute. discriminate.
Defined.

Lemma updateQuantity_absent_id_keeps_items_refreshes_timestamp_witness :
  items (step (P := Reference.platform)
           (readyStore [productA 1; productB 2] storageWithProductA)
           (1730600000000, UpdateQuantity "3" 9))
  = [productA 1; productB 2].
Proof.
  refine (proj1 (updateQuantity_absent_id_keeps_items_refreshes_timestamp
                   (P := Reference.platform)
                   (readyStore [productA 1; productB 2] storageWithProductA)
                   "3" 9 1730600000000 _ _)).
  - reflexivity.
  - intros e He. cbn in He. apply elem_of_cons in He as [->|He]; [discriminate|].
    apply list_elem_of_singleton in He. subst e. discriminate.
Defined.

(** ** Reloading after the 24 hours *)

Lemma append_not_empty (a b : string) :
  b ≠ EmptyString → String.append a b ≠ EmptyString.
Proof. intros Hb. destruct a; [exact Hb | discriminate]. Qed.

Lemma toISOString_not_empty (t : Z) : Reference.toISOString t ≠ EmptyString.
Proof.
  unfold Reference.toISOString.
  destruct (Reference.civil_from_days _) as [[y m] d].
  apply append_not_empty. discriminate.
Qed.

(** X17. On the reference platform: a mutation at a valid time [t] leaves
    a non-empty collection in the slot; a load more than 24 hours after
    [t] starts from the empty collection and removes both keys. *)
Theorem reload_after_expiry (st : CartStore) (t : Z) (m : mutation)
  (loadTime persistTime : Z) :
  isLoading st = false →
  items (step (P := Reference.platform) st (t, m)) ≠ [] →
  valid_time t →
  EXPIRY_MS < loadTime - t →
  ∃ st', mount (P := Reference.platform) loadTime persistTime
           (localStorage (step (P := Reference.platform) st (t, m)))
         = Returns st'
         ∧ items st' = []
         ∧ slot_absent (localStorage st').
Proof.
  intros Hready Hne Ht Hlate.
  assert (isLoading (dispatch m st) = false) as Hready'
    by (by rewrite isLoading_dispatch).
  unfold step in *. cbn [fst snd] in *.
  destruct (persist_ready_lookup (P := Reference.platform) t (dispatch m st)
              Hready' Hne) as [_ Hts].
  unfold mount.
  rewrite (loadCartData_expired (P := Reference.platform) _ _ _ t Hts
             (toISOString_not_empty t)
             (ReferenceFacts.parse_date_toISOString t Ht) Hlate).
  eexists. split; [reflexivity|]. rewrite items_persist.
  cbn [items onStorage]. split; [done|].
  rewrite persist_empty by done.
  cbn [onStorage localStorage initialStore items isLoading].
  rewrite persistEffect_loading. split; storage_simpl.
Qed.

Lemma reload_after_expiry_witness :
  ∃ st', mount (P := Reference.platform)
           (1730600000000 + 86400001) (1730600000000 + 86400002)
           (localStorage
              (step (P := Reference.platform) (readyStore [] ∅)
                 (1730600000000, AddToCart (productA 1))))
         = Returns st'
         ∧ items st' = []
         ∧ slot_absent (localStorage st').
Proof.
  apply (reload_after_expiry (readyStore [] ∅) 1730600000000
           (AddToCart (productA 1))
           (1730600000000 + 86400001) (1730600000000 + 86400002)).
  - reflexivity.
  - discriminate.
  - unfold valid_time. lia.
  - vm_compute. reflexivity.
Defined.

(** ** The shop as the pages wire it *)

Lemma Forall_map_preserved {A} (Q : A → Prop) (f : A → A) (l : list A) :
  (∀ x, Q x → Q (f x)) → Forall Q l → Forall Q (List.map f l).
Proof. intros Hf. induction 1; cbn; constructor; auto. Qed.

Lemma from_catalogue_more (e : CartItem) (q : Z) :
  1 ≤ q → from_catalogue e →
  from_catalogue (with_quantity e (quantity e + q)).
Proof.
  intros Hq [He (product & Hin & Heq)]. split; [cbn; lia|].
  exists product. split; [done|].
  rewrite Heq at 1. by destruct e.
Qed.

Lemma findProduct_in (urlId : string) (product : ProductDetail.Product) :
  ProductDetail.findProduct urlId = Some product →
  product ∈ ProductDetail.mockProducts.
Proof.
  intros Hfind. apply find_some in Hfind as [Hin _].
  by apply list_elem_of_In.
Qed.

Lemma clicked_ok (c : click) (st : CartStore) :
  shop_ok (items st) → shop_ok (items (clicked c st)).
Proof.
  intros [Hall Hnd]. destruct c as [urlId|k]; cbn [clicked].
  - unfold ProductDetail.clickAddToCart.
    destruct (ProductDetail.findProduct urlId) as [product|] eqn:Hfind;
      [|done].
    unfold ProductDetail.handleAddToCart. cbn [items addToCart setItems].
    split; [|by apply addToCart_NoDup].
    unfold Updater.addToCart. destruct (List.find _ _).
    + apply Forall_map_preserved; [|done]. intros e He.
      destruct (bool_decide _); [|done].
      by apply (from_catalogue_more e 1).
    + apply Forall_app. split; [done|]. constructor; [|constructor].
      split; [done|]. exists product.
      split; [by apply (findProduct_in urlId) | done].
  - destruct (items st !! k) as [item|]; [|done].
    rewrite items_removeFromCart. split.
    + unfold Updater.removeFromCart. apply Forall_forall. intros e He.
      apply list_elem_of_In, filter_In in He as [He _].
      rewrite Forall_forall in Hall. by apply Hall, list_elem_of_In.
    + rewrite ids_removeFromCart. by apply NoDup_filter_bool.
Qed.

Section ShopFacts.
Context {P : Platform}.

(** X18. Through the buttons of the pages alone (the add button of a
    product page, the delete button of a card) a cart that starts empty
    only ever holds catalogue products, each under one entry, with its
    catalogue name, price and image and a quantity of at least one. *)
Theorem shop_keeps_catalogue_entries (evs : list (Z * click))
  (st : CartStore) :
  shop_ok (items st) → shop_ok (items (shopRun evs st)).
Proof.
  revert st. induction evs as [|ev evs IH]; intros st Hok; [done|].
  change (shopRun (ev :: evs) st) with (shopRun evs (shopStep st ev)).
  apply IH. unfold shopStep. destruct (on_button ev.2 st); [|done].
  rewrite items_persist. by apply clicked_ok.
Qed.

End ShopFacts.

Lemma shop_keeps_catalogue_entries_witness :
  shop_ok (items (shopRun (P := Reference.platform)
                    [(1000, ClickAddToCart "2"); (2000, ClickAddToCart "1");
                     (3000, ClickAddToCart "2"); (4000, ClickAddToCart "7");
                     (5000, ClickDelete 1); (6000, ClickDelete 5)]
                    (readyStore [] ∅))).
Proof.
  apply (shop_keeps_catalogue_entries (P := Reference.platform)).
  split; constructor.
Defined.

(** ** The first provider *)

Lemma legacy_find (itemId : string) (l : list CartItem) :
  List.find (fun item => bool_decide (LegacyProvider.id item = itemId))
    (legacyItem <$> l)
  = legacyItem <$> List.find (fun i => bool_decide (id i = itemId)) l.
Proof.
  induction l as [|a l IH]; [done|]. cbn.
  by destruct (bool_decide (id a = itemId)).
Qed.

Lemma legacy_map (f : CartItem → CartItem)
  (g : LegacyProvider.CartItem → LegacyProvider.CartItem)
  (l : list CartItem) :
  (∀ a, legacyItem (f a) = g (legacyItem a)) →
  legacyItem <$> List.map f l = List.map g (legacyItem <$> l).
Proof.
  intros Hfg. induction l as [|a l IH]; [done|].
  change (legacyItem (f a) :: (legacyItem <$> List.map f l)
          = g (legacyItem a) :: List.map g (legacyItem <$> l)).
  by rewrite Hfg, IH.
Qed.

(** X19. The provider without persistence does to its list what the
    persistent provider does to its collection: seen without the image,
    the collection after a mutation is the list after the same call on
    the first provider. *)
Theorem legacy_provider_agrees (m : mutation) (st : CartStore) :
  legacyItem <$> items (dispatch m st)
  = legacyDispatch m (legacyItem <$> items st).
Proof.
  rewrite items_dispatch. generalize (items st). intros l.
  destruct m as [item|itemId|itemId q|]; cbn [legacyDispatch].
  - unfold Updater.addToCart, LegacyProvider.addItem.
    change (LegacyProvider.id (legacyItem item)) with (id item).
    rewrite legacy_find.
    destruct (List.find _ l); cbn [fmap option_fmap option_map].
    + apply legacy_map. intros a.
      change (LegacyProvider.id (legacyItem a)) with (id a).
      by destruct (bool_decide (id a = id item)).
    + by rewrite fmap_app.
  - unfold Updater.removeFromCart, LegacyProvider.removeItem.
    induction l as [|a l IH]; [done|]. cbn.
    destruct (bool_decide (id a = itemId)); cbn; by rewrite IH.
  - unfold Updater.updateQuantity, LegacyProvider.updateQuantity.
    apply legacy_map. intros a.
    change (LegacyProvider.id (legacyItem a)) with (id a).
    by destruct (bool_decide (id a = itemId)).
  - done.
Qed.

(** ** Loading the page again *)

(** In the integer model, on the reference platform: after a load that
    gave a non-empty collection, a load within 24 hours gives it
    again. *)
Lemma mount_again (ls : Storage) (st : CartStore)
  (loadTime persistTime loadTime' persistTime' : Z) :
  mount (P := Reference.platform) loadTime persistTime ls = Returns st →
  items st ≠ [] →
  valid_time persistTime →
  loadTime' - persistTime ≤ EXPIRY_MS →
  ∃ st', mount (P := Reference.platform) loadTime' persistTime'
           (localStorage st) = Returns st'
         ∧ items st' = items st.
Proof.
  intros Hmount Hne Ht Hwindow.
  destruct (mount_result (P := Reference.platform) _ _ _ _ Hmount)
    as (st1 & -> & Hready).
  rewrite items_persist in Hne.
  destruct (persist_ready_lookup (P := Reference.platform) persistTime st1
              Hready Hne) as [Hk Hts].
  destruct (reference_platform_faithful (items st1) persistTime Ht)
    as (Htext & Hjson & Hdate).
  assert (unexpired (P := Reference.platform) loadTime'
            (localStorage (persist (P := Reference.platform) persistTime st1)))
    as Hfresh.
  { right. by exists (Reference.toISOString persistTime), persistTime. }
  unfold mount at 1.
  rewrite (loadCartData_snapshot (P := Reference.platform) _ _ _ _
             Hfresh Hk Htext Hjson).
  eexists. split; [reflexivity|]. by rewrite !items_persist.
Qed.

(** X20. On the reference platform: a mutation at a valid time leaves a
    non-empty collection of integers of magnitude at most 2^53.  The
    page is loaded within 24 hours of it, and loaded again within 24
    hours of that load: both loads give that collection. *)
Theorem reload_is_stable (st : CartStore) (t : Z) (m : mutation)
  (loadTime persistTime loadTime' persistTime' : Z) :
  isLoading st = false →
  items (step (P := Reference.platform) st (t, m)) ≠ [] →
  Forall exact_item (items (step (P := Reference.platform) st (t, m))) →
  valid_time t → valid_time persistTime →
  loadTime - t ≤ EXPIRY_MS →
  loadTime' - persistTime ≤ EXPIRY_MS →
  ∃ st1 st2,
    mount (P := Reference.platform) loadTime persistTime
      (localStorage (step (P := Reference.platform) st (t, m))) = Returns st1
    ∧ mount (P := Reference.platform) loadTime' persistTime'
        (localStorage st1) = Returns st2
    ∧ items st1 = items (step (P := Reference.platform) st (t, m))
    ∧ items st2 = items (step (P := Reference.platform) st (t, m)).
Proof.
  intros Hready Hne _ Ht Hpt Hwindow Hwindow'.
  destruct (reload_after_step (P := Reference.platform) st t m
              loadTime persistTime Hready Hne
              (reference_platform_faithful _ _ Ht) Hwindow)
    as (st1 & Hmount & Hitems & _).
  assert (items st1 ≠ []) as Hne1 by (by rewrite Hitems).
  destruct (mount_again _ _ _ _ loadTime' persistTime'
              Hmount Hne1 Hpt Hwindow') as (st2 & Hmount' & Hitems').
  exists st1, st2. split; [done|]. split; [done|]. split; [done|].
  by rewrite Hitems', Hitems.
Qed.

Lemma reload_is_stable_witness :
  ∃ st1 st2,
    mount (P := Reference.platform) 1730599300000 1730599300001
      storageWithProductA = Returns st1
    ∧ mount (P := Reference.platform) 1730599400000 1730599400001
        (localStorage st1) = Returns st2
    ∧ items st1 = [productA 1]
    ∧ items st2 = [productA 1].
Proof.
  apply (reload_is_stable (readyStore [] ∅) 1730599200123
           (AddToCart (productA 1))
           1730599300000 1730599300001 1730599400000 1730599400001).
  - reflexivity.
  - discriminate.
  - change (Forall exact_item [productA 1]).
    repeat constructor; vm_compute; discriminate.
  - unfold valid_time. lia.
  - unfold valid_time. lia.
  - vm_compute. discriminate.
  - vm_compute. discriminate.
Defined.
